(** * GRIT resource-map formatters ([grit/format/resource_map.py])

    A shallow embedding of the resource-map formatter module and the
    properties of its map-name derivation and of the deduplicated table it
    emits.

    Modelling conventions.
    - A Python (byte) string is a [string]; indices and lengths are [Z], as
      [str.find] answers [-1] and indices may be negative.
    - A function that may raise returns a [result]; a generator is a [gen]:
      the fragments yielded so far together with the way the run ended.
    - The resource tree, its nodes and the output descriptors belong to other
      modules of GRIT; they are records holding what this module reads from
      them.  The ID table built by [rc_header.GetIds] is a section variable. *)

From Stdlib Require Import ZArith String Ascii List Lia.
From stdpp Require Import base gmap strings list.
From Equations Require Import Equations.
From Equations.Prop Require Import Logic.

Open Scope string_scope.
Open Scope Z_scope.

(** ** Exceptions and results *)

Inductive exn : Type :=
| Exception (msg : string)
| IndexError
| KeyError (key : string).

Inductive result (A : Type) : Type :=
| Ok (a : A)
| Raise (e : exn).
Arguments Ok {A} a.
Arguments Raise {A} e.

#[global] Instance result_ret : MRet result := fun A a => Ok a.
#[global] Instance result_bind : MBind result := fun A B f m =>
  match m with
  | Ok a => f a
  | Raise e => Raise e
  end.

Definition returns {A} (r : result A) : Prop := exists a, r = Ok a.

(** ** Python strings *)

Module PyStr.

Definition dquote : string := String "034" EmptyString.
Definition newline : string := String "010" EmptyString.

(** [len(s)] *)
Definition len (s : string) : Z := Z.of_nat (String.length s).

Fixpoint take (n : nat) (s : string) : string :=
  match n, s with
  | S n', String c s' => String c (take n' s')
  | _, _ => EmptyString
  end.

Fixpoint drop (n : nat) (s : string) : string :=
  match n, s with
  | S n', String _ s' => drop n' s'
  | _, _ => s
  end.

(** A slice bound is clamped into [0 .. len]; a negative bound counts
    from the end. *)
Definition clamp (n i : Z) : Z :=
  if i <? 0 then Z.max 0 (i + n) else Z.min i n.

(** [s[lo:hi]]; [None] is an omitted bound. *)
Definition slice (s : string) (lo hi : option Z) : string :=
  let n := len s in
  let a := match lo with Some i => clamp n i | None => 0 end in
  let b := match hi with Some j => clamp n j | None => n end in
  take (Z.to_nat (b - a)) (drop (Z.to_nat a) s).

(** [s[i]]: a one-character string, or IndexError out of range. *)
Definition getitem (s : string) (i : Z) : result string :=
  let n := len s in
  let j := if i <? 0 then i + n else i in
  if (j <? 0) || (n <=? j) then Raise IndexError
  else Ok (take 1 (drop (Z.to_nat j) s)).

(** [str.upper] on a byte string: the letters a-z go to A-Z. *)
Definition upper_char (c : ascii) : ascii :=
  let n := nat_of_ascii c in
  if (97 <=? n)%nat && (n <=? 122)%nat then ascii_of_nat (n - 32) else c.

Fixpoint upper (s : string) : string :=
  match s with
  | EmptyString => EmptyString
  | String c s' => String (upper_char c) (upper s')
  end.

(** [s.find(c)] for a one-character [c]: the lowest index, or -1. *)
Fixpoint find (s : string) (c : ascii) : Z :=
  match s with
  | EmptyString => -1
  | String a s' =>
      if Ascii.eqb a c then 0
      else let p := find s' c in if p =? -1 then -1 else p + 1
  end.

(** [s.rfind(c)] for a one-character [c]: the highest index, or -1. *)
Fixpoint rfind (s : string) (c : ascii) : Z :=
  match s with
  | EmptyString => -1
  | String a s' =>
      let p := rfind s' c in
      if p =? -1 then (if Ascii.eqb a c then 0 else -1) else p + 1
  end.

(** [s.replace(old, new)] for one-character [old] and [new]. *)
Fixpoint replace (s : string) (old new : ascii) : string :=
  match s with
  | EmptyString => EmptyString
  | String a s' =>
      String (if Ascii.eqb a old then new else a) (replace s' old new)
  end.

(** [s.rstrip(c)] for a one-character [c]. *)
Fixpoint rstrip (s : string) (c : ascii) : string :=
  match s with
  | EmptyString => EmptyString
  | String a s' =>
      match rstrip s' c with
      | EmptyString => if Ascii.eqb a c then EmptyString else String a EmptyString
      | r => String a r
      end
  end.

(** [c * n] for a one-character [c]. *)
Fixpoint repeat (c : ascii) (n : nat) : string :=
  match n with
  | O => EmptyString
  | S n' => String c (repeat c n')
  end.

(** [c in s] for a one-character [c]. *)
Fixpoint has_char (s : string) (c : ascii) : bool :=
  match s with
  | EmptyString => false
  | String a s' => Ascii.eqb a c || has_char s' c
  end.

(** [s.endswith(c)] for a one-character [c]. *)
Fixpoint endswith (s : string) (c : ascii) : bool :=
  match s with
  | EmptyString => false
  | String a EmptyString => Ascii.eqb a c
  | String _ s' => endswith s' c
  end.

(** Truth value of a string: the empty string is false. *)
Definition truthy (s : string) : bool :=
  match s with EmptyString => false | _ => true end.

End PyStr.

(** ** [os.path] (POSIX flavour) *)

Module os_path.
Import PyStr.

(** [posixpath.split]: everything after the last slash is the tail; the
    head loses its trailing slashes unless it consists of slashes only. *)
Definition split (p : string) : string * string :=
  let i := rfind p "/" + 1 in
  let head := slice p None (Some i) in
  let tail := slice p (Some i) None in
  let head :=
    if truthy head && negb (String.eqb head (repeat "/" (String.length head)))
    then rstrip head "/" else head in
  (head, tail).

(** The scan of [genericpath._splitext] over the characters between the
    last separator and the last dot: the dot starts an extension as soon as
    one of them is not a dot.  The loop [while filenameIndex < dotIndex]
    recurses on [n], the distance [dotIndex - filenameIndex] still to go. *)
Fixpoint splitext_scan (n : nat) (p : string) (filenameIndex dotIndex : Z)
  : string * string :=
  match n with
  | O => (p, slice p None (Some 0))
  | S n' =>
      if negb (String.eqb (slice p (Some filenameIndex) (Some (filenameIndex + 1))) ".")
      then (slice p None (Some dotIndex), slice p (Some dotIndex) None)
      else splitext_scan n' p (filenameIndex + 1) dotIndex
  end.

(** [posixpath.splitext] *)
Definition splitext (p : string) : string * string :=
  let sepIndex := rfind p "/" in
  let dotIndex := rfind p "." in
  if sepIndex <? dotIndex
  then
    let filenameIndex := sepIndex + 1 in
    splitext_scan (Z.to_nat (dotIndex - filenameIndex)) p filenameIndex dotIndex
  else (p, slice p None (Some 0)).

End os_path.

(** ** The collaborators of the formatter *)

(** An output descriptor: what [GetType()] and [GetFilename()] answer. *)
Record Output : Type := {
  GetType : string;
  GetFilename : string
}.

(** A node of the resource tree.  [oid] stands for the identity of the
    object, which is what [item in active_descendants] compares. *)
Record Node : Type := {
  oid : nat;
  attrs : gmap string string;
  IsResourceMapSource : bool;
  GetInputPath : string;
  GeneratesResourceMapEntry : bool -> bool -> bool
}.

(** The root of a grd file: its outputs, the nodes that [for item in root]
    visits, in that order, the nodes that [ActiveDescendants()] visits, and
    the flag [ShouldOutputAllResourceDefines()]. *)
Record Root : Type := {
  GetOutputFiles : list Output;
  iter : list Node;
  ActiveDescendants : list Node;
  ShouldOutputAllResourceDefines : bool
}.

(** [d[k]] on an attribute dictionary. *)
Definition dict_getitem (d : gmap string string) (k : string) : result string :=
  match d !! k with
  | Some v => Ok v
  | None => Raise (KeyError k)
  end.

(** [item in nodes], by identity. *)
Definition node_in (item : Node) (nodes : list Node) : bool :=
  existsb (fun d => Nat.eqb (oid d) (oid item)) nodes.

(** ** [GetMapName] *)

Import PyStr.

(** The scan [for output in outputs] of [GetMapName]: every [rc_header]
    output overwrites [rc_header_file]. *)
Fixpoint scan_rc_header (outputs : list Output) (rc_header_file : option string)
  : option string :=
  match outputs with
  | [] => rc_header_file
  | output :: rest =>
      if String.eqb "rc_header" (GetType output)
      then scan_rc_header rest (Some (GetFilename output))
      else scan_rc_header rest rc_header_file
  end.

(** [not x] for a variable that holds [None] or a string. *)
Definition py_not (x : option string) : bool :=
  match x with
  | None => true
  | Some s => negb (truthy s)
  end.

(** One turn of the [while True] loop of [GetMapName]. *)
Inductive turn : Type :=
| Break
| Raised (e : exn)
| Next (filename : string).

Definition camel_turn (filename : string) : turn :=
  let pos := find filename "_" in
  if (pos =? -1) || (len filename <=? pos) then Break
  else
    match getitem filename (pos + 1) with
    | Raise e => Raised e
    | Ok c =>
        Next (slice filename None (Some pos) +:+ upper c
              +:+ slice filename (Some (pos + 2)) None)
    end.

(** The [while True] loop.  A turn that goes on replaces two characters by
    one, so the length of [filename] decreases. *)
Equations? camel_loop (filename : string) : result string
  by wf (String.length filename) lt :=
  camel_loop filename with inspect (camel_turn filename) := {
    | exist _ Break _ => Ok filename
    | exist _ (Raised e) _ => Raise e
    | exist _ (Next filename') H => camel_loop filename' }.
Proof.
  assert (Happ : forall a b : string,
             String.length (a +:+ b) = (String.length a + String.length b)%nat).
  { induction a as [|x a IH]; intros b; simpl; [reflexivity | now rewrite IH]. }
  assert (Htake : forall n (s : string),
             String.length (take n s) = Nat.min n (String.length s)).
  { induction n as [|n IH]; intros [|x s]; simpl; try reflexivity.
    now rewrite IH. }
  assert (Hdrop : forall n (s : string),
             String.length (drop n s) = (String.length s - n)%nat).
  { induction n as [|n IH]; intros [|x s]; simpl; try reflexivity.
    apply IH. }
  assert (Hupper : forall s : string, String.length (upper s) = String.length s).
  { induction s as [|x s IH]; simpl; [reflexivity | now rewrite IH]. }
  assert (Hfind : forall s : string, -1 <= find s "_").
  { induction s as [|x s IH]; simpl; [lia |].
    destruct (Ascii.eqb x "_"); [lia |].
    destruct (find s "_" =? -1); lia. }
  clear camel_loop. revert H. unfold camel_turn, getitem, slice, clamp, len.
  specialize (Hfind filename).
  set (pos := find filename "_") in *.
  set (n := String.length filename) in *.
  destruct ((pos =? -1) || (Z.of_nat n <=? pos)) eqn:Hguard; [discriminate |].
  apply orb_false_iff in Hguard as [Hp1 Hp2].
  apply Z.eqb_neq in Hp1. apply Z.leb_gt in Hp2.
  replace (pos + 1 <? 0) with false by (symmetry; apply Z.ltb_ge; lia).
  replace (pos + 2 <? 0) with false by (symmetry; apply Z.ltb_ge; lia).
  replace (pos <? 0) with false by (symmetry; apply Z.ltb_ge; lia).
  destruct ((pos + 1 <? 0) || (Z.of_nat n <=? pos + 1)) eqn:Hidx; [discriminate |].
  apply orb_false_iff in Hidx as [_ Hidx]. apply Z.leb_gt in Hidx.
  intros [= <-].
  rewrite !Happ, Hupper, !Htake, !Hdrop. fold n.
  destruct (drop (Z.to_nat (pos + 1)) filename); simpl String.length; lia.
Qed.

Definition GetMapName (root : Root) : result string :=
  let outputs := GetOutputFiles root in
  match scan_rc_header outputs None with
  | Some rc_header_file =>
      if truthy rc_header_file then
        let filename := (os_path.splitext (os_path.split rc_header_file).2).1 in
        first ← getitem filename 0;
        let filename := upper first +:+ slice filename (Some 1) None in
        filename ← camel_loop filename;
        Ok ("k" +:+ filename)
      else Raise (Exception "unable to find resource header filename")
  | None => Raise (Exception "unable to find resource header filename")
  end.

(** ** The loop as a single pass over the string *)

(** The loop leaves the characters before the first underscore alone; an
    underscore is dropped and the character after it upper-cased, which, when
    that character is an underscore too, hands the obligation over to the
    next one.  [cap] tells that the character to come is to be upper-cased
    and has to exist. *)
Fixpoint camel_pass (cap : bool) (s : string) : result string :=
  match s with
  | EmptyString => if cap then Raise IndexError else Ok EmptyString
  | String c r =>
      if Ascii.eqb c "_" then camel_pass true r
      else
        r' ← camel_pass false r;
        Ok (String (if cap then upper_char c else c) r')
  end.

(** ** The map name, as the specification words it *)

(** The base name of the header: directory and extension stripped. *)
Definition base_name (rc_header_file : string) : string :=
  (os_path.splitext (os_path.split rc_header_file).2).1.

(** One rewriting step: the next underscore is removed and the character
    that follows it upper-cased. *)
Inductive underscore_step : string -> string -> Prop :=
| underscore_step_intro (a : string) (c : ascii) (b : string) :
    has_char a "_" = false ->
    underscore_step (a +:+ String "_" (String c b))
                    (a +:+ String (upper_char c) b).

(** [camel_cased base name]: [name] comes from [base] by upper-casing the
    first character and then rewriting until no underscore remains. *)
Definition camel_cased (base name : string) : Prop :=
  exists c r,
    base = String c r /\
    rtc underscore_step (String (upper_char c) r) name /\
    has_char name "_" = false.

(** [f] is the filename of the last output of type [rc_header]. *)
Definition last_rc_header (outputs : list Output) (f : string) : Prop :=
  exists pre o post,
    outputs = (pre ++ o :: post)%list /\
    GetType o = "rc_header" /\
    GetFilename o = f /\
    Forall (fun o' => GetType o' <> "rc_header") post.

(** What the specification asks of the map name of the header [f]. *)
Definition map_name_spec (f name : string) : Prop :=
  exists s, camel_cased (base_name f) s /\ name = "k" +:+ s.

(** ** Generators *)

(** What a consumer that drains a generator sees: the fragments yielded, in
    order, and then either the end of the generator or an exception. *)
Record gen (A : Type) : Type := Gen {
  yielded : list string;
  outcome : result A
}.
Arguments Gen {A} yielded outcome.
Arguments yielded {A} g.
Arguments outcome {A} g.

#[global] Instance gen_ret : MRet gen := fun A a => Gen [] (Ok a).
#[global] Instance gen_bind : MBind gen := fun A B f m =>
  match outcome m with
  | Ok a => let r := f a in Gen (yielded m ++ yielded r) (outcome r)
  | Raise e => Gen (yielded m) (Raise e)
  end.

Definition yield (fragment : string) : gen unit := Gen [fragment] (Ok tt).

(** A call that may raise, made from inside a generator. *)
Definition call {A} (r : result A) : gen A := Gen [] r.

(** [for x in l: body], threading the local state of the loop; a body that
    ends (also by [continue]) hands over the state it leaves. *)
Fixpoint for_each {S A : Type} (body : S -> A -> gen S) (l : list A) (s : S)
  : gen S :=
  match l with
  | [] => mret s
  | x :: l' => s' ← body s x; for_each body l' s'
  end.

(** ** The formatters *)

(** [%s] applied to a variable that holds [None] or a string. *)
Definition py_str (x : option string) : string :=
  match x with
  | Some s => s
  | None => "None"
  end.

Definition _FormatHeader (root : Root) (lang output_dir : string) : result string :=
  map_name ← GetMapName root;
  Ok ("// This file is automatically generated by GRIT.  Do not edit.

#include <stddef.h>

#ifndef GRIT_RESOURCE_MAP_STRUCT_
#define GRIT_RESOURCE_MAP_STRUCT_
struct GritResourceMap {
  const char* name;
  int value;
};
#endif // GRIT_RESOURCE_MAP_STRUCT_

extern const GritResourceMap " +:+ map_name +:+ "[];
extern const size_t " +:+ map_name +:+ "Size;
").

(** The scan [for output in root.GetOutputFiles()] of [_FormatSourceHeader]. *)
Fixpoint scan_source_outputs (outputs : list Output)
    (rc_header_file map_header_file : option string)
  : option string * option string :=
  match outputs with
  | [] => (rc_header_file, map_header_file)
  | output :: rest =>
      if String.eqb "rc_header" (GetType output)
      then scan_source_outputs rest (Some (GetFilename output)) map_header_file
      else if String.eqb "resource_map_header" (GetType output)
      then scan_source_outputs rest rc_header_file (Some (GetFilename output))
      else scan_source_outputs rest rc_header_file map_header_file
  end.

Definition _FormatSourceHeader (root : Root) : result string :=
  let '(rc_header_file, map_header_file) :=
    scan_source_outputs (GetOutputFiles root) None None in
  if py_not rc_header_file || py_not map_header_file then
    Raise (Exception
      "resource_map_source output type requires resource_map_header and rc_header outputs")
  else
    map_name ← GetMapName root;
    Ok ("// This file is automatically generated by GRIT.  Do not edit.

#include " +:+ dquote +:+ py_str map_header_file +:+ dquote +:+ "

#include <stddef.h>

#include " +:+ dquote +:+ "base/macros.h" +:+ dquote +:+ "

#include " +:+ dquote +:+ py_str rc_header_file +:+ dquote +:+ "

const GritResourceMap " +:+ map_name +:+ "[] = {
").

Definition _FormatSourceFooter (root : Root) : result string :=
  map_name ← GetMapName root;
  Ok ("};

const size_t " +:+ map_name +:+ "Size = arraysize(" +:+ map_name +:+ ");
").

(** The row ['  {"%s", %s},\n' % (key, tid)]. *)
Definition format_row (key tid : string) : string :=
  "  {" +:+ dquote +:+ key +:+ dquote +:+ ", " +:+ tid +:+ "}," +:+ newline.

Definition _GetItemName (item : Node) : result string :=
  dict_getitem (attrs item) "name".

Definition _GetItemPath (item : Node) : result string :=
  Ok (replace (GetInputPath item) "\" "/").

Section Formatter.

(** [rc_header.GetIds]: the dictionary from textual IDs to numeric IDs. *)
Variable GetIds : Root -> gmap string Z.

(** [k in d] *)
Definition dict_contains (d : gmap string Z) (k : string) : bool :=
  bool_decide (is_Some (d !! k)).

(** The body of the loop [for item in root] of [_FormatSource]; [seen] is
    the set of keys of the rows yielded so far. *)
Definition _FormatSource_item (get_key : Node -> result string)
    (tids : gmap string Z) (active_descendants : list Node)
    (output_all_resource_defines : bool)
    (seen : gset string) (item : Node) : gen (gset string) :=
  if negb (IsResourceMapSource item) then mret seen
  else
    key ← call (get_key item);
    tid ← call (dict_getitem (attrs item) "name");
    if negb (dict_contains tids tid) || bool_decide (key ∈ seen) then mret seen
    else if GeneratesResourceMapEntry item output_all_resource_defines
              (node_in item active_descendants)
    then
      let seen := {[key]} ∪ seen in
      yield (format_row key tid);;
      mret seen
    else mret seen.

Definition _FormatSource (get_key : Node -> result string) (root : Root)
    (lang output_dir : string) : gen unit :=
  header ← call (_FormatSourceHeader root);
  yield header;;
  let tids := GetIds root in
  let seen : gset string := ∅ in
  let active_descendants := ActiveDescendants root in
  let output_all_resource_defines := ShouldOutputAllResourceDefines root in
  for_each (_FormatSource_item get_key tids active_descendants
              output_all_resource_defines) (iter root) seen;;
  footer ← call (_FormatSourceFooter root);
  yield footer.

(** What [GetFormatter] hands out: a function that returns the text of
    the header, or a generator function. *)
Inductive formatter : Type :=
| Returning (f : Root -> string -> string -> result string)
| Generating (f : Root -> string -> string -> gen unit).

(** A call that matches none of the types falls off the end of the
    function and so answers [None]. *)
Definition GetFormatter (type : string) : option formatter :=
  if String.eqb type "resource_map_header" then
    Some (Returning _FormatHeader)
  else if String.eqb type "resource_map_source" then
    Some (Generating (_FormatSource _GetItemName))
  else if String.eqb type "resource_file_map_source" then
    Some (Generating (_FormatSource _GetItemPath))
  else None.

End Formatter.

(** ** Facts about Python strings *)

(** ** The vocabulary of the properties of the table *)

(** The key and the name of a node, for the nodes that have them. *)
Definition key_of (get_key : Node -> result string) (item : Node) : string :=
  match get_key item with
  | Ok key => key
  | Raise _ => EmptyString
  end.

Definition name_of (item : Node) : string :=
  match attrs item !! "name" with
  | Some tid => tid
  | None => EmptyString
  end.

(** A node of a well-formed tree that is a resource-map source has a name,
    and the key extractor answers on it. *)
Definition well_formed (get_key : Node -> result string) (item : Node) : Prop :=
  IsResourceMapSource item = true ->
  returns (get_key item) /\ is_Some (attrs item !! "name").

(** The filters that look at the node alone: it is a resource-map source,
    its name has an ID, and it generates an entry. *)
Definition eligible (tids : gmap string Z) (active_descendants : list Node)
    (output_all_resource_defines : bool) (item : Node) : bool :=
  IsResourceMapSource item
  && dict_contains tids (name_of item)
  && GeneratesResourceMapEntry item output_all_resource_defines
       (node_in item active_descendants).

(** The row of a node. *)
Definition row_of (get_key : Node -> result string) (item : Node) : string :=
  format_row (key_of get_key item) (name_of item).

(** ** Sample trees *)

Module Samples.

Definition output (type filename : string) : Output :=
  {| GetType := type; GetFilename := filename |}.

(** A root that has the given outputs and no node. *)
Definition bare_root (outputs : list Output) : Root :=
  {| GetOutputFiles := outputs;
     iter := [];
     ActiveDescendants := [];
     ShouldOutputAllResourceDefines := false |}.

Definition theme_root : Root := bare_root [output "rc_header" "theme_resources.h"].
Definition simple_root : Root := bare_root [output "rc_header" "simple.h"].

(** Two headers: [GetMapName] answers for the second. *)
Definition two_headers_root : Root :=
  bare_root [output "rc_header" "a.h"; output "rc_header" "b.h"].

(** A header whose base name ends with an underscore, and one whose base
    name is empty. *)
Definition trailing_root : Root := bare_root [output "rc_header" "foo_.h"].
Definition empty_base_root : Root := bare_root [output "rc_header" "gen/"].

(** No header at all. *)
Definition map_only_root : Root :=
  bare_root [output "resource_map_header" "theme_resources_map.h"].

(** A node of the kind of an include: it has a name and a file, and it
    generates an entry when it is active or when all defines are asked
    for. *)
Definition node (id : nat) (name path : string) : Node :=
  {| oid := id;
     attrs := {[ "name" := name ]};
     IsResourceMapSource := true;
     GetInputPath := path;
     GeneratesResourceMapEntry :=
       fun output_all_resource_defines is_active_descendant =>
         output_all_resource_defines || is_active_descendant |}.

Definition both_headers : list Output :=
  [output "rc_header" "resources.h";
   output "resource_map_header" "resources_map.h"].

(** One active node, whose ID is 101. *)
Definition greeting : Node := node 1 "IDS_GREETING" "greeting.html".

Definition greeting_root : Root :=
  {| GetOutputFiles := both_headers;
     iter := [greeting];
     ActiveDescendants := [greeting];
     ShouldOutputAllResourceDefines := false |}.

Definition greeting_ids (root : Root) : gmap string Z :=
  {[ "IDS_GREETING" := 101 ]}.

(** Two nodes for one file, the first of them inactive. *)
Definition old_logo : Node := node 1 "IDS_OLD_LOGO" "img\logo.png".
Definition logo : Node := node 2 "IDS_LOGO" "img/logo.png".

Definition logo_root : Root :=
  {| GetOutputFiles := both_headers;
     iter := [old_logo; logo];
     ActiveDescendants := [logo];
     ShouldOutputAllResourceDefines := false |}.

Definition logo_ids (root : Root) : gmap string Z :=
  {[ "IDS_OLD_LOGO" := 200; "IDS_LOGO" := 201 ]}.

(** A node whose name has no ID. *)
Definition orphan : Node := node 3 "IDS_ORPHAN" "orphan.png".

End Samples.

(** The root [root] with its outputs replaced. *)
Definition with_outputs (root : Root) (outputs : list Output) : Root :=
  {| GetOutputFiles := outputs;
     iter := iter root;
     ActiveDescendants := ActiveDescendants root;
     ShouldOutputAllResourceDefines := ShouldOutputAllResourceDefines root |}.

(** ** Further vocabulary *)


(** [s == c * len(s)] for a one-character [c]. *)
Fixpoint only_char (s : string) (c : ascii) : bool :=
  match s with
  | EmptyString => true
  | String a s' => Ascii.eqb a c && only_char s' c
  end.

(** [m] is the filename of the last output of type [resource_map_header]. *)
Definition last_map_header (outputs : list Output) (m : string) : Prop :=
  exists pre o post,
    outputs = (pre ++ o :: post)%list /\
    GetType o = "resource_map_header" /\
    GetFilename o = m /\
    Forall (fun o' => GetType o' <> "resource_map_header") post.

(** The root [root] with the nodes of its iteration replaced. *)
Definition with_iter (root : Root) (items : list Node) : Root :=
  {| GetOutputFiles := GetOutputFiles root;
     iter := items;
     ActiveDescendants := ActiveDescendants root;
     ShouldOutputAllResourceDefines := ShouldOutputAllResourceDefines root |}.

(** The text of [_FormatSourceHeader], for the two filenames and the name. *)
Definition source_header_text (map_header_file rc_header_file map_name : string)
  : string :=
  "// This file is automatically generated by GRIT.  Do not edit.

#include " +:+ dquote +:+ map_header_file +:+ dquote +:+ "

#include <stddef.h>

#include " +:+ dquote +:+ "base/macros.h" +:+ dquote +:+ "

#include " +:+ dquote +:+ rc_header_file +:+ dquote +:+ "

const GritResourceMap " +:+ map_name +:+ "[] = {
".

(** The text of [_FormatSourceFooter], for the name. *)
Definition source_footer_text (map_name : string) : string :=
  "};

const size_t " +:+ map_name +:+ "Size = arraysize(" +:+ map_name +:+ ");
".

Module MoreSamples.
Import Samples.

(** A header in a directory, and the same header with another extension. *)
Definition nested_root : Root :=
  bare_root [output "rc_header" "gen/ui/theme_resources.h"].
Definition hpp_root : Root := bare_root [output "rc_header" "theme_resources.hpp"].

(** A header whose filename is empty, after one whose filename is not. *)
Definition unnamed_root : Root :=
  bare_root [output "rc_header" "a.h"; output "rc_header" EmptyString].

(** A header whose name is an extension only. *)
Definition dot_root : Root := bare_root [output "rc_header" ".h"].

(** Both headers, the base name of the first ending with an underscore. *)
Definition trailing_both_root : Root :=
  bare_root [output "rc_header" "foo_.h";
             output "resource_map_header" "foo_map.h"].

(** A resource-map source that has no name. *)
Definition nameless : Node :=
  {| oid := 4;
     attrs := ∅;
     IsResourceMapSource := true;
     GetInputPath := "nameless.png";
     GeneratesResourceMapEntry := fun _ _ => true |}.

(** A node that has no name and is not a resource-map source. *)
Definition grouping : Node :=
  {| oid := 5;
     attrs := ∅;
     IsResourceMapSource := false;
     GetInputPath := EmptyString;
     GeneratesResourceMapEntry := fun _ _ => false |}.

Definition broken_root : Root :=
  {| GetOutputFiles := both_headers;
     iter := [grouping; greeting; nameless; orphan];
     ActiveDescendants := [greeting];
     ShouldOutputAllResourceDefines := false |}.

(** Two map headers. *)
Definition two_maps_root : Root :=
  bare_root [output "resource_map_header" "old_map.h";
             output "rc_header" "resources.h";
             output "resource_map_header" "resources_map.h"].

End MoreSamples.

(** Settles the integer tests of the goal that linear arithmetic decides. *)
Ltac ztests :=
  cbv zeta;
  repeat match goal with
    | |- context [?a <? ?b] =>
        first [ rewrite (proj2 (Z.ltb_ge a b)) by lia
              | rewrite (proj2 (Z.ltb_lt a b)) by lia ]
    | |- context [?a <=? ?b] =>
        first [ rewrite (proj2 (Z.leb_gt a b)) by lia
              | rewrite (proj2 (Z.leb_le a b)) by lia ]
    | |- context [?a =? ?b] =>
        first [ rewrite (proj2 (Z.eqb_neq a b)) by lia
              | rewrite (proj2 (Z.eqb_eq a b)) by lia ]
    end;
  cbn [orb andb negb].

Lemma length_app (a b : string) :
  String.length (a +:+ b) = (String.length a + String.length b)%nat.
Proof. induction a as [|x a IH]; simpl; [reflexivity | now rewrite IH]. Qed.

Lemma take_all (n : nat) (s : string) :
  (String.length s <= n)%nat -> take n s = s.
Proof.
  revert n; induction s as [|x s IH]; intros [|n] Hn; simpl in *; try reflexivity.
  - lia.
  - rewrite IH; [reflexivity | lia].
Qed.

Lemma length_take (n : nat) (s : string) :
  String.length (take n s) = Nat.min n (String.length s).
Proof.
  revert s; induction n as [|n IH]; intros [|x s]; simpl; try reflexivity.
  now rewrite IH.
Qed.

Lemma length_drop (n : nat) (s : string) :
  String.length (drop n s) = (String.length s - n)%nat.
Proof.
  revert s; induction n as [|n IH]; intros [|x s]; simpl; try reflexivity.
  apply IH.
Qed.

Lemma drop_all (n : nat) (s : string) :
  (String.length s <= n)%nat -> drop n s = EmptyString.
Proof.
  revert n; induction s as [|x s IH]; intros [|n] Hn; simpl in *; try reflexivity.
  - lia.
  - apply IH; lia.
Qed.

Lemma length_upper (s : string) : String.length (upper s) = String.length s.
Proof. induction s as [|x s IH]; simpl; [reflexivity | now rewrite IH]. Qed.

Lemma length_replace (s : string) (old new : ascii) :
  String.length (replace s old new) = String.length s.
Proof. induction s as [|x s IH]; simpl; [reflexivity | now rewrite IH]. Qed.

Lemma slice_to (s : string) (i : Z) :
  0 <= i -> slice s None (Some i) = take (Z.to_nat i) s.
Proof.
  intros Hi. unfold slice, clamp, len.
  replace (i <? 0) with false by (symmetry; apply Z.ltb_ge; lia).
  rewrite Z.sub_0_r. simpl drop.
  destruct (Z.le_gt_cases i (Z.of_nat (String.length s))) as [H|H].
  - now rewrite Z.min_l by lia.
  - rewrite Z.min_r by lia. rewrite Nat2Z.id.
    rewrite !take_all; [reflexivity | lia | lia].
Qed.

Lemma slice_from (s : string) (i : Z) :
  0 <= i -> slice s (Some i) None = drop (Z.to_nat i) s.
Proof.
  intros Hi. unfold slice, clamp, len.
  replace (i <? 0) with false by (symmetry; apply Z.ltb_ge; lia).
  destruct (Z.le_gt_cases i (Z.of_nat (String.length s))) as [H|H].
  - rewrite Z.min_l by lia. apply take_all. rewrite length_drop. lia.
  - rewrite Z.min_r by lia. rewrite Nat2Z.id.
    rewrite !drop_all by lia. now rewrite Z.sub_diag.
Qed.

Lemma getitem_inside (s : string) (i : Z) :
  0 <= i < len s -> getitem s i = Ok (take 1 (drop (Z.to_nat i) s)).
Proof.
  intros [H0 H1]. unfold getitem. ztests. reflexivity.
Qed.

Lemma getitem_outside (s : string) (i : Z) :
  len s <= i -> getitem s i = Raise IndexError.
Proof.
  intros H. unfold getitem. unfold len in *. ztests. reflexivity.
Qed.

Lemma find_range (s : string) (c : ascii) : -1 <= find s c < len s.
Proof.
  unfold len. induction s as [|x s IH]; simpl String.length; simpl find; [lia |].
  destruct (Ascii.eqb x c); [lia |].
  destruct (find s c =? -1) eqn:E; [lia |].
  apply Z.eqb_neq in E. lia.
Qed.

Lemma upper_char_underscore (c : ascii) :
  Ascii.eqb (upper_char c) "_" = Ascii.eqb c "_".
Proof. destruct c as [[] [] [] [] [] [] [] []]; reflexivity. Qed.

(** ** The loop of [GetMapName], one turn at a time *)

Lemma find_absent (s : string) (c : ascii) :
  find s c = -1 <-> has_char s c = false.
Proof.
  induction s as [|x s IH]; simpl; [tauto |].
  destruct (Ascii.eqb x c); simpl; [split; [lia | discriminate] |].
  pose proof (find_range s c) as Hr.
  destruct (find s c =? -1) eqn:E.
  - apply Z.eqb_eq in E. tauto.
  - apply Z.eqb_neq in E. split; [lia | tauto].
Qed.

Lemma camel_turn_empty : camel_turn EmptyString = Break.
Proof. reflexivity. Qed.

Lemma camel_turn_last : camel_turn (String "_" EmptyString) = Raised IndexError.
Proof. reflexivity. Qed.

Lemma camel_turn_underscore (c : ascii) (r : string) :
  camel_turn (String "_" (String c r)) = Next (String (upper_char c) r).
Proof.
  unfold camel_turn. cbn [find Ascii.eqb Bool.eqb]. 
  assert (Hlen : len (String "_" (String c r)) = len r + 2).
  { unfold len. simpl String.length. lia. }
  pose proof (Nat2Z.is_nonneg (String.length r)) as Hn. fold (len r) in Hn.
  rewrite Hlen. ztests.
  rewrite getitem_inside by lia.
  rewrite slice_to, slice_from by lia.
  reflexivity.
Qed.

Lemma camel_turn_cons (x : ascii) (s : string) :
  Ascii.eqb x "_" = false ->
  camel_turn (String x s) =
    match camel_turn s with
    | Break => Break
    | Raised e => Raised e
    | Next s' => Next (String x s')
    end.
Proof.
  intros Hx. unfold camel_turn. cbn [find]. rewrite Hx.
  pose proof (find_range s "_") as Hr.
  assert (Hlen : len (String x s) = len s + 1).
  { unfold len. simpl String.length. lia. }
  rewrite Hlen.
  destruct (find s "_" =? -1) eqn:E.
  - apply Z.eqb_eq in E. rewrite E. reflexivity.
  - apply Z.eqb_neq in E. ztests.
    unfold getitem. rewrite Hlen. ztests.
    destruct (len s <=? find s "_" + 1) eqn:Hb.
    + apply Z.leb_le in Hb. ztests. reflexivity.
    + apply Z.leb_gt in Hb. ztests.
      rewrite !slice_to, !slice_from by lia.
      replace (Z.to_nat (find s "_" + 1 + 1)) with (S (Z.to_nat (find s "_" + 1))) by lia.
      replace (Z.to_nat (find s "_" + 1 + 2)) with (S (Z.to_nat (find s "_" + 2))) by lia.
      replace (Z.to_nat (find s "_" + 1)) with (S (Z.to_nat (find s "_"))) at 1 by lia.
      reflexivity.
Qed.

(** The loop, unfolded by one turn. *)
Lemma camel_loop_step (s : string) :
  camel_loop s =
    match camel_turn s with
    | Break => Ok s
    | Raised e => Raise e
    | Next s' => camel_loop s'
    end.
Proof.
  funelim (camel_loop s);
    match goal with E : camel_turn _ = _ |- _ => rewrite E end; reflexivity.
Qed.

Lemma camel_loop_cons (x : ascii) (s : string) :
  Ascii.eqb x "_" = false ->
  camel_loop (String x s) = (s' ← camel_loop s; Ok (String x s')).
Proof.
  intros Hx. funelim (camel_loop s).
  all: rewrite camel_loop_step, camel_turn_cons by assumption.
  all: match goal with E : camel_turn _ = _ |- _ => rewrite E end.
  all: auto.
Qed.

Lemma camel_pass_cap (c : ascii) (r : string) :
  camel_pass true (String c r) = camel_pass false (String (upper_char c) r).
Proof.
  cbn [camel_pass]. rewrite upper_char_underscore.
  destruct (Ascii.eqb c "_") eqn:E; [| reflexivity].
  apply Ascii.eqb_eq in E. subst c. reflexivity.
Qed.

Lemma camel_loop_pass (s : string) : camel_loop s = camel_pass false s.
Proof.
  remember (String.length s) as n eqn:Hn.
  revert s Hn. induction n as [n IH] using lt_wf_ind. intros s Hn.
  destruct s as [|x t]; [reflexivity |].
  destruct (Ascii.eqb x "_") eqn:Hx.
  - apply Ascii.eqb_eq in Hx. subst x.
    destruct t as [|c r]; [reflexivity |].
    rewrite camel_loop_step, camel_turn_underscore.
    rewrite (IH (String.length (String (upper_char c) r))).
    + cbn [camel_pass Ascii.eqb Bool.eqb]. fold (camel_pass true (String c r)).
      symmetry. apply camel_pass_cap.
    + subst n. simpl. lia.
    + reflexivity.
  - rewrite camel_loop_cons by assumption.
    rewrite (IH (String.length t)); [| subst n; simpl; lia | reflexivity].
    cbn [camel_pass]. rewrite Hx. reflexivity.
Qed.

(** ** The loop against the rewriting of the specification *)

Lemma camel_turn_break (s : string) :
  camel_turn s = Break -> has_char s "_" = false.
Proof.
  unfold camel_turn. pose proof (find_range s "_") as Hr.
  destruct (find s "_" =? -1) eqn:E.
  - intros _. apply Z.eqb_eq in E. now apply find_absent.
  - apply Z.eqb_neq in E. ztests.
    destruct (getitem s (find s "_" + 1)); discriminate.
Qed.

(** A turn raises only when the underscore found is the last character. *)
Lemma camel_turn_raised (s : string) (e : exn) :
  camel_turn s = Raised e -> e = IndexError /\ find s "_" + 1 = len s.
Proof.
  unfold camel_turn, getitem. pose proof (find_range s "_") as Hr.
  destruct (find s "_" =? -1) eqn:E; [discriminate |].
  apply Z.eqb_neq in E. ztests.
  destruct (len s <=? find s "_" + 1) eqn:Hb; [| discriminate].
  apply Z.leb_le in Hb. intros [= <-]. split; [reflexivity | lia].
Qed.

Lemma camel_turn_next (s s' : string) :
  camel_turn s = Next s' -> underscore_step s s'.
Proof.
  revert s'. induction s as [|x t IH]; intros s' H; [discriminate |].
  destruct (Ascii.eqb x "_") eqn:Hx.
  - apply Ascii.eqb_eq in Hx. subst x.
    destruct t as [|c r]; [discriminate |].
    rewrite camel_turn_underscore in H. injection H as <-.
    apply (underscore_step_intro EmptyString c r). reflexivity.
  - rewrite camel_turn_cons in H by assumption.
    destruct (camel_turn t) as [| |t']; try discriminate.
    injection H as <-.
    destruct (IH t' eq_refl) as [a c b Ha].
    apply (underscore_step_intro (String x a) c b).
    cbn [has_char]. now rewrite Hx, Ha.
Qed.

Lemma camel_loop_rewrites (s r : string) :
  camel_loop s = Ok r ->
  rtc underscore_step s r /\ has_char r "_" = false.
Proof.
  funelim (camel_loop s); intros Hr.
  - injection Hr as <-. split; [apply rtc_refl | now apply camel_turn_break].
  - discriminate.
  - match goal with
    | IH : forall r, camel_loop ?f = Ok r -> _ |- _ => destruct (IH r Hr) as [Hs Hu]
    end.
    split; [| exact Hu].
    eapply rtc_l; [| exact Hs]. now apply camel_turn_next.
Qed.

Lemma has_char_app (a b : string) (c : ascii) :
  has_char (a +:+ b) c = has_char a c || has_char b c.
Proof.
  induction a as [|x a IH]; simpl; [reflexivity |].
  rewrite IH. now rewrite orb_assoc.
Qed.

Lemma underscore_step_source (s s' : string) :
  underscore_step s s' -> has_char s "_" = true.
Proof.
  intros [a c b _]. rewrite has_char_app. cbn [has_char Ascii.eqb Bool.eqb].
  now rewrite orb_true_r.
Qed.

(** The next underscore is the first one, so a string has one successor at
    most. *)
Lemma underscore_step_functional (s s1 s2 : string) :
  underscore_step s s1 -> underscore_step s s2 -> s1 = s2.
Proof.
  intros H1 H2. destruct H1 as [a1 c1 b1 Ha1].
  remember (a1 +:+ String "_" (String c1 b1)) as s eqn:Hs.
  destruct H2 as [a2 c2 b2 Ha2].
  revert a2 Ha2 Hs. induction a1 as [|x a1 IH]; intros [|y a2] Ha2 Hs;
    injection Hs as Hh Ht; subst; cbn [has_char Ascii.eqb Bool.eqb orb] in *;
    try discriminate.
  - reflexivity.
  - apply orb_false_iff in Ha1 as [_ Ha1]. apply orb_false_iff in Ha2 as [_ Ha2].
    simpl. apply (f_equal (String x)). now apply IH.
Qed.

Lemma underscore_rewriting_functional (s r1 r2 : string) :
  rtc underscore_step s r1 -> has_char r1 "_" = false ->
  rtc underscore_step s r2 -> has_char r2 "_" = false ->
  r1 = r2.
Proof.
  intros H1. revert r2.
  induction H1 as [s|s t r1 Hst _ IH]; intros r2 Hn1 H2 Hn2.
  - inversion H2 as [|? t ? Hst]; subst; [reflexivity |].
    apply underscore_step_source in Hst. congruence.
  - inversion H2 as [|? t' ? Hst' H2']; subst.
    + apply underscore_step_source in Hst. congruence.
    + rewrite (underscore_step_functional _ _ _ Hst' Hst) in H2'. now apply IH.
Qed.

Lemma camel_cased_functional (base n1 n2 : string) :
  camel_cased base n1 -> camel_cased base n2 -> n1 = n2.
Proof.
  intros (c1 & r1 & E1 & H1 & U1) (c2 & r2 & E2 & H2 & U2).
  rewrite E1 in E2. injection E2 as <- <-.
  eapply underscore_rewriting_functional; eassumption.
Qed.

Lemma map_name_spec_functional (f n1 n2 : string) :
  map_name_spec f n1 -> map_name_spec f n2 -> n1 = n2.
Proof.
  intros (s1 & H1 & ->) (s2 & H2 & ->).
  now rewrite (camel_cased_functional _ _ _ H1 H2).
Qed.

(** ** The scan for the header and the name derived from it *)

Lemma scan_rc_header_app (pre post : list Output) (init : option string) :
  scan_rc_header (pre ++ post)%list init = scan_rc_header post (scan_rc_header pre init).
Proof.
  revert init. induction pre as [|o pre IH]; intros init;
    cbn [scan_rc_header app]; [reflexivity |].
  destruct (String.eqb "rc_header" (GetType o)); apply IH.
Qed.

Lemma scan_rc_header_skip (outputs : list Output) (init : option string) :
  Forall (fun o => GetType o <> "rc_header") outputs ->
  scan_rc_header outputs init = init.
Proof.
  induction 1 as [|o outputs Ho _ IH]; cbn [scan_rc_header]; [reflexivity |].
  destruct (String.eqb_spec "rc_header" (GetType o)) as [E|_]; [| exact IH].
  now contradiction Ho.
Qed.

Lemma scan_rc_header_last (outputs : list Output) (f : string) (init : option string) :
  last_rc_header outputs f -> scan_rc_header outputs init = Some f.
Proof.
  intros (pre & o & post & -> & Ht & <- & Hpost).
  rewrite scan_rc_header_app. cbn [scan_rc_header]. rewrite Ht, String.eqb_refl.
  now apply scan_rc_header_skip.
Qed.

Lemma base_name_nonempty (f : string) : base_name f <> EmptyString -> truthy f = true.
Proof. destruct f; [intros H; now contradiction H | reflexivity]. Qed.

(** Once the header is found, the name is the single pass over its base
    name, started with the obligation to upper-case. *)
Lemma GetMapName_pass (root : Root) (f : string) :
  scan_rc_header (GetOutputFiles root) None = Some f ->
  truthy f = true ->
  GetMapName root = (s ← camel_pass true (base_name f); Ok ("k" +:+ s)).
Proof.
  intros Hscan Hf. unfold GetMapName. rewrite Hscan, Hf.
  fold (base_name f). destruct (base_name f) as [|c r]; [reflexivity |].
  rewrite getitem_inside by (unfold len; simpl String.length; lia).
  rewrite slice_from by lia.
  change (take 1 (drop (Z.to_nat 0) (String c r))) with (String c EmptyString).
  change (drop (Z.to_nat 1) (String c r)) with r.
  cbn [mbind result_bind upper].
  change (String (upper_char c) EmptyString +:+ r) with (String (upper_char c) r).
  now rewrite camel_loop_pass, <- camel_pass_cap.
Qed.

Lemma camel_pass_raises (s : string) (cap : bool) :
  endswith s "_" = true -> camel_pass cap s = Raise IndexError.
Proof.
  revert cap. induction s as [|c r IH]; intros cap H; [discriminate |].
  cbn [camel_pass]. destruct r as [|c' r'].
  - cbn [endswith] in H. now rewrite H.
  - change (endswith (String c' r') "_" = true) in H.
    destruct (Ascii.eqb c "_"); [now apply IH |].
    now rewrite (IH false H).
Qed.

Lemma camel_pass_returns (s : string) (cap : bool) :
  endswith s "_" = false -> (cap = true -> s <> EmptyString) ->
  returns (camel_pass cap s).
Proof.
  revert cap. induction s as [|c r IH]; intros cap H Hne.
  - destruct cap; [now contradiction Hne | now exists EmptyString].
  - cbn [camel_pass]. destruct r as [|c' r'].
    + cbn [endswith] in H. rewrite H. cbn. eexists; reflexivity.
    + change (endswith (String c' r') "_" = false) in H.
      destruct (Ascii.eqb c "_").
      * apply IH; [exact H | discriminate].
      * destruct (IH false H) as [r1 ->]; [discriminate |]. eexists; reflexivity.
Qed.

(** The single pass, read as the rewriting of the specification. *)
Lemma camel_pass_cased (base s : string) :
  camel_pass true base = Ok s -> camel_cased base s.
Proof.
  destruct base as [|c r]; [discriminate |].
  rewrite camel_pass_cap, <- camel_loop_pass. intros H.
  apply camel_loop_rewrites in H as [Hs Hu]. now exists c, r.
Qed.

(** ** [GetMapName]: the properties *)

Import Samples.

(** C2, amended.  When [f] is the filename of the last [rc_header] output,
    and the base name of [f] (directory and extension stripped) is not empty
    and does not end with an underscore, [GetMapName] returns the one string
    that comes from the base name by upper-casing its first character,
    rewriting until no underscore remains (the next underscore is removed and
    the character after it upper-cased) and putting [k] in front.  So
    [theme_resources.h] gives [kThemeResources], [foo_bar_baz.h] gives
    [kFooBarBaz] and [simple.h] gives [kSimple]. *)
Theorem GetMapName_camel_case (root : Root) (f : string)
    (Hlast : last_rc_header (GetOutputFiles root) f)
    (Hbase : base_name f <> EmptyString)
    (Hend : endswith (base_name f) "_" = false) :
  (exists name,
      GetMapName root = Ok name /\ map_name_spec f name /\
      forall name', map_name_spec f name' -> name' = name) /\
  (f = "theme_resources.h" -> GetMapName root = Ok "kThemeResources") /\
  (f = "foo_bar_baz.h" -> GetMapName root = Ok "kFooBarBaz") /\
  (f = "simple.h" -> GetMapName root = Ok "kSimple").
Proof.
  pose proof (scan_rc_header_last _ _ None Hlast) as Hscan.
  pose proof (GetMapName_pass root f Hscan (base_name_nonempty f Hbase)) as Hname.
  split; [| repeat split; intros ->; rewrite Hname; reflexivity].
  destruct (camel_pass_returns (base_name f) true Hend) as [s Hs]; [easy |].
  rewrite Hs in Hname. exists ("k" +:+ s).
  assert (Hspec : map_name_spec f ("k" +:+ s)).
  { exists s. split; [now apply camel_pass_cased | reflexivity]. }
  repeat split; [exact Hname | exact Hspec |].
  intros name' H'. exact (map_name_spec_functional f _ _ H' Hspec).
Qed.

Lemma GetMapName_camel_case_witness :
  GetMapName theme_root = Ok "kThemeResources" /\
  map_name_spec "theme_resources.h" "kThemeResources".
Proof.
  assert (Hlast : last_rc_header (GetOutputFiles theme_root) "theme_resources.h").
  { exists [], (output "rc_header" "theme_resources.h"), [].
    repeat split; constructor. }
  assert (Hbase : base_name "theme_resources.h" <> EmptyString)
    by (vm_compute; discriminate).
  assert (Hend : endswith (base_name "theme_resources.h") "_" = false)
    by (vm_compute; reflexivity).
  destruct (GetMapName_camel_case theme_root "theme_resources.h" Hlast Hbase Hend)
    as [(name & Hname & Hspec & _) [Hex _]].
  specialize (Hex eq_refl). rewrite Hex in Hname. injection Hname as <-.
  split; [exact Hex | exact Hspec].
Defined.

(** C2 as stated fails.  A list may hold several [rc_header] outputs, and
    the name is not the one of each of them; a base name that ends with an
    underscore, or an empty one, gives no name at all. *)
Lemma GetMapName_camel_case_counterexample :
  (In (output "rc_header" "a.h") (GetOutputFiles two_headers_root) /\
   GetMapName two_headers_root = Ok "kB" /\
   ~ map_name_spec "a.h" "kB") /\
  (In (output "rc_header" "foo_.h") (GetOutputFiles trailing_root) /\
   GetMapName trailing_root = Raise IndexError) /\
  (In (output "rc_header" "gen/") (GetOutputFiles empty_base_root) /\
   GetMapName empty_base_root = Raise IndexError).
Proof.
  repeat split; try (vm_compute; tauto).
  intros H.
  assert (HA : map_name_spec "a.h" "kA").
  { exists "A". split; [apply camel_pass_cased |]; reflexivity. }
  pose proof (map_name_spec_functional _ _ _ H HA). discriminate.
Qed.

(** C5.  When no output has type [rc_header], [GetMapName] raises the
    exception [unable to find resource header filename] and returns no
    name. *)
Theorem GetMapName_no_rc_header (root : Root)
    (Hnone : Forall (fun o => GetType o <> "rc_header") (GetOutputFiles root)) :
  GetMapName root = Raise (Exception "unable to find resource header filename").
Proof.
  unfold GetMapName. now rewrite (scan_rc_header_skip _ None Hnone).
Qed.

Lemma GetMapName_no_rc_header_witness :
  GetMapName map_only_root =
    Raise (Exception "unable to find resource header filename").
Proof.
  apply (GetMapName_no_rc_header map_only_root).
  repeat constructor. vm_compute. discriminate.
Defined.

(** C9.  When several outputs have type [rc_header], the scan keeps the
    filename of the last of them: the name that [GetMapName] answers is the
    one it answers when that output stands alone, whatever comes before
    it. *)
Theorem GetMapName_last_rc_header (root : Root) (pre post : list Output) (o : Output)
    (Hout : GetOutputFiles root = (pre ++ o :: post)%list)
    (Hty : GetType o = "rc_header")
    (Hpost : Forall (fun o' => GetType o' <> "rc_header") post) :
  scan_rc_header (GetOutputFiles root) None = Some (GetFilename o) /\
  GetMapName root = GetMapName (with_outputs root [o]).
Proof.
  assert (Hscan : scan_rc_header (GetOutputFiles root) None = Some (GetFilename o)).
  { apply scan_rc_header_last. now exists pre, o, post. }
  split; [exact Hscan |].
  unfold GetMapName. rewrite Hscan.
  cbn [with_outputs GetOutputFiles scan_rc_header]. now rewrite Hty, String.eqb_refl.
Qed.

Lemma GetMapName_last_rc_header_witness :
  GetMapName two_headers_root = Ok "kB" /\
  GetMapName (bare_root [output "rc_header" "a.h"]) = Ok "kA".
Proof.
  split; [| reflexivity].
  destruct (GetMapName_last_rc_header two_headers_root
              [output "rc_header" "a.h"] [] (output "rc_header" "b.h"))
    as [_ H]; [reflexivity | reflexivity | constructor |].
  rewrite H. reflexivity.
Defined.

(** C10.  Let [f] be the filename of the last [rc_header] output.  When the
    base name of [f] is not empty and does not end with an underscore, no
    index of [GetMapName] is out of range and the function returns.  When the
    base name ends with an underscore, the index after the last underscore is
    out of range and [GetMapName] raises IndexError; the test
    [pos >= len(filename)] of the loop never holds, and a turn of the loop
    raises only IndexError, when the underscore it found is the last
    character. *)
Theorem GetMapName_index_bounds (root : Root) (f : string)
    (Hlast : last_rc_header (GetOutputFiles root) f) :
  (base_name f <> EmptyString -> endswith (base_name f) "_" = false ->
   returns (GetMapName root)) /\
  (endswith (base_name f) "_" = true -> GetMapName root = Raise IndexError) /\
  (forall filename : string, (len filename <=? find filename "_") = false) /\
  (forall (filename : string) (e : exn),
      camel_turn filename = Raised e ->
      e = IndexError /\ find filename "_" + 1 = len filename).
Proof.
  pose proof (scan_rc_header_last _ _ None Hlast) as Hscan.
  repeat split.
  - intros Hbase Hend.
    rewrite (GetMapName_pass root f Hscan (base_name_nonempty f Hbase)).
    destruct (camel_pass_returns (base_name f) true Hend) as [s ->]; [easy |].
    now exists ("k" +:+ s).
  - intros Hend.
    assert (Hbase : base_name f <> EmptyString) by (intros E; now rewrite E in Hend).
    rewrite (GetMapName_pass root f Hscan (base_name_nonempty f Hbase)).
    now rewrite (camel_pass_raises _ true Hend).
  - intros filename. apply Z.leb_gt. apply find_range.
  - now apply camel_turn_raised in H.
  - now apply camel_turn_raised in H.
Qed.

Lemma GetMapName_index_bounds_witness :
  returns (GetMapName simple_root) /\ GetMapName trailing_root = Raise IndexError.
Proof.
  split.
  - apply (GetMapName_index_bounds simple_root "simple.h").
    + exists [], (output "rc_header" "simple.h"), []. repeat split; constructor.
    + vm_compute. discriminate.
    + vm_compute. reflexivity.
  - apply (GetMapName_index_bounds trailing_root "foo_.h").
    + exists [], (output "rc_header" "foo_.h"), []. repeat split; constructor.
    + vm_compute. reflexivity.
Defined.

(** ** Generators and the loop over the nodes *)

Lemma gen_eta {A} (g : gen A) : Gen (yielded g) (outcome g) = g.
Proof. now destruct g. Qed.

Lemma gen_bind_ret {A B} (a : A) (f : A -> gen B) : (mret a ≫= f) = f a.
Proof. unfold mbind, gen_bind, mret, gen_ret. cbn. apply gen_eta. Qed.

Lemma call_ok {A B} (a : A) (f : A -> gen B) : (call (Ok a) ≫= f) = f a.
Proof. apply (gen_bind_ret a f). Qed.

Lemma gen_bind_ext {A B} (m : gen A) (f g : A -> gen B) :
  (forall a, f a = g a) -> (m ≫= f) = (m ≫= g).
Proof.
  intros H. unfold mbind, gen_bind. destruct (outcome m); [| reflexivity].
  now rewrite H.
Qed.

Lemma for_each_skip {S A} (body : S -> A -> gen S) (l1 l2 : list A) (x : A) :
  (forall s, body s x = mret s) ->
  forall s, for_each body (l1 ++ x :: l2)%list s = for_each body (l1 ++ l2)%list s.
Proof.
  intros Hx. induction l1 as [|y l1 IH]; intros s; cbn [for_each app].
  - rewrite Hx. apply gen_bind_ret.
  - apply gen_bind_ext. exact IH.
Qed.

Section Loop.

Variable get_key : Node -> result string.
Variable tids : gmap string Z.
Variable active_descendants : list Node.
Variable output_all_resource_defines : bool.

Let body := _FormatSource_item get_key tids active_descendants
              output_all_resource_defines.
Let ok := eligible tids active_descendants output_all_resource_defines.
Let key := key_of get_key.

(** A node that fails a filter leaves no trace. *)
Lemma item_skipped (seen : gset string) (item : Node) :
  well_formed get_key item ->
  ok item = false \/ key item ∈ seen ->
  body seen item = mret seen.
Proof.
  intros Hwf Hskip. unfold body, _FormatSource_item.
  unfold ok, eligible, key, key_of, name_of in Hskip.
  destruct (IsResourceMapSource item) eqn:Hsrc; [| reflexivity].
  destruct (Hwf Hsrc) as [[k Hk] [n Hn]].
  rewrite Hk, Hn in Hskip. unfold dict_getitem. rewrite Hk, Hn.
  cbn [negb]. rewrite !call_ok.
  destruct (dict_contains tids n) eqn:Hn'; [| reflexivity].
  cbn [negb orb andb] in *.
  destruct (bool_decide (k ∈ seen)) eqn:Hseen; [reflexivity |].
  apply bool_decide_eq_false in Hseen.
  destruct Hskip as [-> | Hin]; [reflexivity | contradiction].
Qed.

(** A node that passes them all yields its row and marks its key. *)
Lemma item_emitted (seen : gset string) (item : Node) :
  well_formed get_key item ->
  ok item = true -> key item ∉ seen ->
  body seen item = Gen [row_of get_key item] (Ok ({[key item]} ∪ seen)).
Proof.
  intros Hwf Hok Hnew. unfold body, _FormatSource_item.
  unfold ok, eligible, row_of, key, key_of, name_of in *.
  destruct (IsResourceMapSource item) eqn:Hsrc; [| discriminate].
  destruct (Hwf Hsrc) as [[k Hk] [n Hn]].
  rewrite Hk, Hn in *. unfold dict_getitem. rewrite Hn.
  cbn [negb]. rewrite !call_ok.
  cbn [andb] in Hok. apply andb_true_iff in Hok as [Hn' Hgen].
  rewrite Hn', Hgen, (bool_decide_eq_false_2 _ Hnew). reflexivity.
Qed.

(** The loop yields the rows of a subsequence of the nodes: the nodes that
    pass the filters and whose key no earlier such node has. *)
Lemma loop_rows (items : list Node) (seen : gset string) :
  Forall (well_formed get_key) items ->
  exists emitted seen',
    for_each body items seen = Gen (map (row_of get_key) emitted) (Ok seen') /\
    sublist emitted items /\
    Forall (fun it => ok it = true /\ key it ∉ seen) emitted /\
    NoDup (map key emitted) /\
    (forall l1 it l2,
        items = (l1 ++ it :: l2)%list -> ok it = true -> key it ∉ seen ->
        (forall x, x ∈ l1 -> ok x = true -> key x <> key it) ->
        it ∈ emitted).
Proof.
  intros Hwf. revert seen.
  induction Hwf as [|item rest Hitem _ IH]; intros seen.
  - exists [], seen. repeat split; try constructor.
    intros [|? ?] ? ? E; discriminate E.
  - destruct (ok item) eqn:Hok;
      [destruct (decide (key item ∈ seen)) as [Hin|Hnew] |].
    2: { (* the node is emitted *)
      destruct (IH ({[key item]} ∪ seen))
        as (emitted & seen' & Hrun & Hsub & Hall & Hnd & Hfirst).
      exists (item :: emitted), seen'. repeat split.
      - cbn [for_each]. rewrite (item_emitted seen item Hitem Hok Hnew).
        unfold mbind, gen_bind. cbn [outcome yielded]. now rewrite Hrun.
      - now apply sublist_skip.
      - constructor; [easy |].
        eapply Forall_impl; [exact Hall |]. cbn. intros it [? Hout].
        split; [assumption |].
        intros Hin. apply Hout. apply elem_of_union. now right.
      - cbn [map]. constructor; [| exact Hnd].
        intros Hdup. apply list_elem_of_fmap in Hdup as (it & Hk & Hit).
        rewrite Forall_forall in Hall. apply (proj2 (Hall it Hit)).
        rewrite <- Hk. apply elem_of_union. left. now apply elem_of_singleton.
      - intros [|y l1] it l2 E Hit Hout Hbefore; injection E as <- ->.
        + apply list_elem_of_here.
        + apply list_elem_of_further. apply (Hfirst l1 it l2 eq_refl Hit).
          * pose proof (Hbefore item (list_elem_of_here _ _) Hok) as Hne.
            intros [Hin | Hin]%elem_of_union; [| contradiction].
            apply elem_of_singleton in Hin. congruence.
          * intros x Hx. apply Hbefore. now apply list_elem_of_further. }
    all: (* the node is skipped *)
      destruct (IH seen) as (emitted & seen' & Hrun & Hsub & Hall & Hnd & Hfirst);
      exists emitted, seen'; repeat split;
      [ cbn [for_each]; rewrite (item_skipped seen item Hitem) by tauto;
        now rewrite gen_bind_ret
      | now apply sublist_cons
      | exact Hall
      | exact Hnd
      | intros [|y l1] it l2 E Hit Hout Hbefore; injection E as <- ->;
        [ congruence
        | apply (Hfirst l1 it l2 eq_refl Hit Hout);
          intros x Hx; apply Hbefore; now apply list_elem_of_further ] ].
Qed.

End Loop.

(** ** The source formatter as a whole *)

Lemma FormatSourceHeader_name (root : Root) (header : string) :
  _FormatSourceHeader root = Ok header -> returns (GetMapName root).
Proof.
  unfold _FormatSourceHeader.
  destruct (scan_source_outputs (GetOutputFiles root) None None) as [rc map].
  destruct (py_not rc || py_not map); [discriminate |].
  destruct (GetMapName root) as [name|e]; [now exists name | discriminate].
Qed.

Section Source.

Variable GetIds : Root -> gmap string Z.
Variable get_key : Node -> result string.
Variable root : Root.

Let ok := eligible (GetIds root) (ActiveDescendants root)
            (ShouldOutputAllResourceDefines root).
Let key := key_of get_key.

(** With both headers among the outputs and a well-formed tree, the
    generator yields the header, the rows of the nodes it keeps, and the
    footer, and ends. *)
Lemma FormatSource_shape (lang output_dir header : string) :
  _FormatSourceHeader root = Ok header ->
  Forall (well_formed get_key) (iter root) ->
  exists emitted footer,
    _FormatSource GetIds get_key root lang output_dir =
      Gen (header :: map (row_of get_key) emitted ++ [footer])%list (Ok tt) /\
    _FormatSourceFooter root = Ok footer /\
    sublist emitted (iter root) /\
    Forall (fun it => ok it = true) emitted /\
    NoDup (map key emitted) /\
    (forall l1 it l2,
        iter root = (l1 ++ it :: l2)%list -> ok it = true ->
        (forall x, x ∈ l1 -> ok x = true -> key x <> key it) ->
        it ∈ emitted).
Proof.
  intros Hheader Hwf.
  destruct (FormatSourceHeader_name root header Hheader) as [name Hname].
  destruct (loop_rows get_key (GetIds root) (ActiveDescendants root)
              (ShouldOutputAllResourceDefines root) (iter root) ∅ Hwf)
    as (emitted & seen' & Hrun & Hsub & Hall & Hnd & Hfirst).
  exists emitted. eexists. repeat split.
  - unfold _FormatSource, _FormatSourceFooter. rewrite Hheader, Hname.
    unfold mbind at 1 2 3 4, gen_bind. cbn [call yield outcome yielded].
    rewrite Hrun. cbn [outcome yielded mbind result_bind app]. reflexivity.
  - unfold _FormatSourceFooter. rewrite Hname. reflexivity.
  - exact Hsub.
  - eapply Forall_impl; [exact Hall |]. now intros it [? _].
  - exact Hnd.
  - intros l1 it l2 E Hit Hbefore. apply (Hfirst l1 it l2 E Hit); [| exact Hbefore].
    apply not_elem_of_empty.
Qed.

End Source.

(** ** The table: the properties *)

Lemma Forall_sublist {A} (P : A -> Prop) (k l : list A) :
  sublist k l -> Forall P l -> Forall P k.
Proof.
  induction 1 as [|x k l _ IH|x k l _ IH]; intros Hl.
  - constructor.
  - apply Forall_cons in Hl as [Hx Hl]. constructor; [exact Hx | now apply IH].
  - apply Forall_cons in Hl as [_ Hl]. now apply IH.
Qed.

(** Where the keys do not repeat, a key picks one element. *)
Lemma filter_key_NoDup {A} (f : A -> string) (l : list A) (a : A) :
  NoDup (map f l) -> a ∈ l ->
  filter (fun x => f x = f a) l = [a].
Proof.
  induction l as [|x l IH]; intros Hnd Ha; [now apply elem_of_nil in Ha |].
  cbn [map] in Hnd. apply NoDup_cons in Hnd as [Hx Hnd].
  assert (Hrest : forall y, y ∈ l -> f y <> f x).
  { intros y Hy E. apply Hx. rewrite <- E. apply list_elem_of_fmap. now exists y. }
  apply elem_of_cons in Ha as [-> | Ha].
  - rewrite filter_cons_True by reflexivity. f_equal.
    clear IH Hx Hnd. induction l as [|y l IHl]; [reflexivity |].
    rewrite filter_cons_False.
    + apply IHl. intros z Hz. apply Hrest. now apply list_elem_of_further.
    + apply Hrest. apply list_elem_of_here.
  - rewrite filter_cons_False; [now apply IH |].
    intros E. now apply (Hrest a Ha).
Qed.

(** C1, amended.  With both headers among the outputs and a well-formed
    tree, every fragment between the header and the footer is the row of a
    node that the formatter keeps: two spaces, an opening brace, the key of
    the node between double quotes, a comma and a space, then the name of the
    node as it stands (the textual ID, which has an entry in the ID table,
    and not the number of that entry), a closing brace, a comma and a line
    feed. *)
Theorem FormatSource_row_text (GetIds : Root -> gmap string Z)
    (get_key : Node -> result string) (root : Root)
    (lang output_dir header : string)
    (Hheader : _FormatSourceHeader root = Ok header)
    (Hwf : Forall (well_formed get_key) (iter root)) :
  exists emitted rows footer,
    _FormatSource GetIds get_key root lang output_dir =
      Gen (header :: rows ++ [footer])%list (Ok tt) /\
    sublist emitted (iter root) /\
    Forall2
      (fun item row =>
         exists key tid,
           get_key item = Ok key /\
           attrs item !! "name" = Some tid /\
           is_Some (GetIds root !! tid) /\
           row = "  {" +:+ dquote +:+ key +:+ dquote +:+ ", " +:+ tid
                 +:+ "}," +:+ newline)
      emitted rows.
Proof.
  destruct (FormatSource_shape GetIds get_key root lang output_dir header Hheader Hwf)
    as (emitted & footer & Hrun & _ & Hsub & Hok & _ & _).
  exists emitted, (map (row_of get_key) emitted), footer.
  repeat split; [exact Hrun | exact Hsub |].
  pose proof (Forall_sublist _ _ _ Hsub Hwf) as Hwf'.
  clear Hrun Hsub. induction emitted as [|item emitted IH]; [constructor |].
  apply Forall_cons in Hok as [Hitem Hok]. apply Forall_cons in Hwf' as [Hw Hwf'].
  cbn [map]. constructor; [| now apply IH].
  unfold eligible in Hitem.
  apply andb_true_iff in Hitem as [Hitem _].
  apply andb_true_iff in Hitem as [Hsrc Hid].
  destruct (Hw Hsrc) as [[key Hkey] [tid Htid]].
  exists key, tid. unfold row_of, key_of, name_of in *. rewrite Hkey, Htid in *.
  repeat split. now apply bool_decide_eq_true in Hid.
Qed.

Lemma FormatSource_row_text_witness :
  (exists header,
      _FormatSourceHeader greeting_root = Ok header /\
      exists emitted rows footer,
        _FormatSource greeting_ids _GetItemName greeting_root "en" "." =
          Gen (header :: rows ++ [footer])%list (Ok tt) /\
        sublist emitted (iter greeting_root) /\
        Forall2
          (fun item row =>
             exists key tid,
               _GetItemName item = Ok key /\
               attrs item !! "name" = Some tid /\
               is_Some (greeting_ids greeting_root !! tid) /\
               row = "  {" +:+ dquote +:+ key +:+ dquote +:+ ", " +:+ tid
                     +:+ "}," +:+ newline)
          emitted rows) /\
  yielded (_FormatSource greeting_ids _GetItemName greeting_root "en" ".") !! 1%nat =
    Some ("  {" +:+ dquote +:+ "IDS_GREETING" +:+ dquote +:+ ", IDS_GREETING},"
          +:+ newline).
Proof.
  split; [| vm_compute; reflexivity].
  eexists. split; [vm_compute; reflexivity |].
  apply (FormatSource_row_text greeting_ids _GetItemName greeting_root "en" ".").
  - vm_compute. reflexivity.
  - repeat constructor; eexists; reflexivity.
Defined.

(** C1 as stated fails: the second field of a row is the name of the node,
    not the number that the ID table holds for it.  The node [IDS_GREETING],
    whose ID is 101, gets the row that ends with [IDS_GREETING], and no
    fragment ends with [101]. *)
Lemma FormatSource_row_text_counterexample :
  greeting_ids greeting_root !! "IDS_GREETING" = Some 101 /\
  _GetItemName greeting = Ok "IDS_GREETING" /\
  In ("  {" +:+ dquote +:+ "IDS_GREETING" +:+ dquote +:+ ", IDS_GREETING},"
      +:+ newline)
     (yielded (_FormatSource greeting_ids _GetItemName greeting_root "en" ".")) /\
  ~ In ("  {" +:+ dquote +:+ "IDS_GREETING" +:+ dquote +:+ ", 101}," +:+ newline)
       (yielded (_FormatSource greeting_ids _GetItemName greeting_root "en" ".")).
Proof.
  repeat split; try (vm_compute; reflexivity).
  - vm_compute. tauto.
  - vm_compute. intros [H | [H | [H | []]]]; discriminate H.
Qed.

(** C3, amended.  With both headers among the outputs and a well-formed
    tree, the fragments between the header and the footer are the rows of a
    subsequence of the nodes, in the order of the iteration; no two of the
    nodes kept have the same key; every node kept passes the filters that
    look at the node alone; and the first node that passes them, among the
    nodes of one key, is kept, and it is the only node of that key that is:
    a later node of the same key leaves no row and raises nothing.  A node
    that fails a filter does not count as an occurrence of its key. *)
Theorem FormatSource_first_key_wins (GetIds : Root -> gmap string Z)
    (get_key : Node -> result string) (root : Root)
    (lang output_dir header : string)
    (Hheader : _FormatSourceHeader root = Ok header)
    (Hwf : Forall (well_formed get_key) (iter root)) :
  let ok := eligible (GetIds root) (ActiveDescendants root)
              (ShouldOutputAllResourceDefines root) in
  let key := key_of get_key in
  exists emitted footer,
    _FormatSource GetIds get_key root lang output_dir =
      Gen (header :: map (row_of get_key) emitted ++ [footer])%list (Ok tt) /\
    sublist emitted (iter root) /\
    NoDup (map key emitted) /\
    Forall (fun item => ok item = true) emitted /\
    (forall l1 item l2,
        iter root = (l1 ++ item :: l2)%list ->
        ok item = true ->
        (forall x, x ∈ l1 -> ok x = true -> key x <> key item) ->
        filter (fun x => key x = key item) emitted = [item]).
Proof.
  intros ok key.
  destruct (FormatSource_shape GetIds get_key root lang output_dir header Hheader Hwf)
    as (emitted & footer & Hrun & _ & Hsub & Hok & Hnd & Hfirst).
  exists emitted, footer. repeat split; try assumption.
  intros l1 item l2 E Hitem Hbefore.
  apply (filter_key_NoDup key); [exact Hnd |].
  now apply (Hfirst l1 item l2).
Qed.

Lemma FormatSource_first_key_wins_witness :
  exists header,
    _FormatSourceHeader logo_root = Ok header /\
    exists emitted footer,
      _FormatSource logo_ids _GetItemPath logo_root "en" "." =
        Gen (header :: map (row_of _GetItemPath) emitted ++ [footer])%list (Ok tt) /\
      sublist emitted (iter logo_root) /\
      NoDup (map (key_of _GetItemPath) emitted) /\
      Forall (fun item =>
                eligible (logo_ids logo_root) (ActiveDescendants logo_root)
                  (ShouldOutputAllResourceDefines logo_root) item = true) emitted /\
      (forall l1 item l2,
          iter logo_root = (l1 ++ item :: l2)%list ->
          eligible (logo_ids logo_root) (ActiveDescendants logo_root)
            (ShouldOutputAllResourceDefines logo_root) item = true ->
          (forall x, x ∈ l1 ->
                     eligible (logo_ids logo_root) (ActiveDescendants logo_root)
                       (ShouldOutputAllResourceDefines logo_root) x = true ->
                     key_of _GetItemPath x <> key_of _GetItemPath item) ->
          filter (fun x => key_of _GetItemPath x = key_of _GetItemPath item) emitted
            = [item]).
Proof.
  eexists. split; [vm_compute; reflexivity |].
  apply (FormatSource_first_key_wins logo_ids _GetItemPath logo_root "en" ".").
  - vm_compute. reflexivity.
  - repeat constructor; eexists; reflexivity.
Defined.

(** C3 as stated fails: of two nodes that share a key, the first one met is
    not always the one whose row is yielded.  The two nodes of [logo_root]
    have the key [img/logo.png]; the first is inactive, and the row yielded
    is the row of the second. *)
Lemma FormatSource_first_key_wins_counterexample :
  iter logo_root = [old_logo; logo] /\
  _GetItemPath old_logo = Ok "img/logo.png" /\
  _GetItemPath logo = Ok "img/logo.png" /\
  outcome (_FormatSource logo_ids _GetItemPath logo_root "en" ".") = Ok tt /\
  ~ In (row_of _GetItemPath old_logo)
       (yielded (_FormatSource logo_ids _GetItemPath logo_root "en" ".")) /\
  In (row_of _GetItemPath logo)
     (yielded (_FormatSource logo_ids _GetItemPath logo_root "en" ".")).
Proof.
  repeat split; try (vm_compute; reflexivity).
  - vm_compute. intros [H | [H | [H | []]]]; discriminate H.
  - vm_compute. tauto.
Qed.

(** ** The outputs that the source formatter requires *)

Lemma scan_source_outputs_rc (outputs : list Output) (rc map : option string) :
  Forall (fun o => GetType o <> "rc_header") outputs ->
  (scan_source_outputs outputs rc map).1 = rc.
Proof.
  intros H. revert map. induction H as [|o outputs Ho _ IH]; intros map;
    cbn [scan_source_outputs]; [reflexivity |].
  destruct (String.eqb_spec "rc_header" (GetType o)) as [E|_];
    [now contradiction Ho |].
  destruct (String.eqb "resource_map_header" (GetType o)); apply IH.
Qed.

Lemma scan_source_outputs_map (outputs : list Output) (rc map : option string) :
  Forall (fun o => GetType o <> "resource_map_header") outputs ->
  (scan_source_outputs outputs rc map).2 = map.
Proof.
  intros H. revert rc. induction H as [|o outputs Ho _ IH]; intros rc;
    cbn [scan_source_outputs]; [reflexivity |].
  destruct (String.eqb "rc_header" (GetType o)); [apply IH |].
  destruct (String.eqb_spec "resource_map_header" (GetType o)) as [E|_];
    [now contradiction Ho | apply IH].
Qed.

(** C4.  When no output has type [resource_map_header], or none has type
    [rc_header], the source formatter raises the exception
    [resource_map_source output type requires resource_map_header and
    rc_header outputs] before it yields anything; so it does when the
    [rc_header] output is there and the [resource_map_header] output is
    not. *)
Theorem FormatSource_requires_outputs (GetIds : Root -> gmap string Z)
    (get_key : Node -> result string) (root : Root) (lang output_dir : string)
    (Hmissing :
       Forall (fun o => GetType o <> "resource_map_header") (GetOutputFiles root) \/
       Forall (fun o => GetType o <> "rc_header") (GetOutputFiles root)) :
  _FormatSourceHeader root =
    Raise (Exception
      "resource_map_source output type requires resource_map_header and rc_header outputs") /\
  _FormatSource GetIds get_key root lang output_dir =
    Gen [] (Raise (Exception
      "resource_map_source output type requires resource_map_header and rc_header outputs")).
Proof.
  assert (Hheader : _FormatSourceHeader root =
    Raise (Exception
      "resource_map_source output type requires resource_map_header and rc_header outputs")).
  { unfold _FormatSourceHeader.
    destruct (scan_source_outputs (GetOutputFiles root) None None) as [rc map] eqn:E.
    destruct Hmissing as [H | H].
    - pose proof (scan_source_outputs_map _ None None H) as Hm.
      rewrite E in Hm. cbn in Hm. subst map. now rewrite orb_true_r.
    - pose proof (scan_source_outputs_rc _ None None H) as Hr.
      rewrite E in Hr. cbn in Hr. subst rc. reflexivity. }
  split; [exact Hheader |].
  unfold _FormatSource. rewrite Hheader. reflexivity.
Qed.

Lemma FormatSource_requires_outputs_witness :
  In (output "rc_header" "theme_resources.h") (GetOutputFiles theme_root) /\
  _FormatSource greeting_ids _GetItemName theme_root "en" "." =
    Gen [] (Raise (Exception
      "resource_map_source output type requires resource_map_header and rc_header outputs")).
Proof.
  split; [vm_compute; tauto |].
  apply (FormatSource_requires_outputs greeting_ids _GetItemName theme_root "en" ".").
  left. repeat constructor. vm_compute. discriminate.
Defined.

(** C6.  [GetFormatter] answers the header formatter for
    [resource_map_header], the source formatter bound to the extractor of
    names for [resource_map_source], the source formatter bound to the
    extractor of paths for [resource_file_map_source], and nothing for any
    other string. *)
Theorem GetFormatter_table (GetIds : Root -> gmap string Z) :
  GetFormatter GetIds "resource_map_header" = Some (Returning _FormatHeader) /\
  GetFormatter GetIds "resource_map_source" =
    Some (Generating (_FormatSource GetIds _GetItemName)) /\
  GetFormatter GetIds "resource_file_map_source" =
    Some (Generating (_FormatSource GetIds _GetItemPath)) /\
  (forall type : string,
      type <> "resource_map_header" ->
      type <> "resource_map_source" ->
      type <> "resource_file_map_source" ->
      GetFormatter GetIds type = None) /\
  (forall type : string,
      GetFormatter GetIds type <> None ->
      type = "resource_map_header" \/ type = "resource_map_source" \/
      type = "resource_file_map_source").
Proof.
  repeat split; try reflexivity.
  - intros type H1 H2 H3. unfold GetFormatter.
    destruct (String.eqb_spec type "resource_map_header"); [contradiction |].
    destruct (String.eqb_spec type "resource_map_source"); [contradiction |].
    destruct (String.eqb_spec type "resource_file_map_source"); [contradiction |].
    reflexivity.
  - intros type. unfold GetFormatter.
    destruct (String.eqb_spec type "resource_map_header"); [tauto |].
    destruct (String.eqb_spec type "resource_map_source"); [tauto |].
    destruct (String.eqb_spec type "resource_file_map_source"); [tauto |].
    intros H. now contradiction H.
Qed.

Lemma GetFormatter_table_witness :
  GetFormatter greeting_ids "rc_header" = None.
Proof.
  destruct (GetFormatter_table greeting_ids) as (_ & _ & _ & Hother & _).
  apply Hother; discriminate.
Defined.

(** C7.  A node whose name has no entry in the ID table, and on which the
    key extractor answers, leaves no row and raises nothing: the body of the
    loop yields no fragment and hands the set of seen keys over as it was,
    and the loop runs as if the node were not in the tree. *)
Theorem FormatSource_item_without_id (get_key : Node -> result string)
    (tids : gmap string Z) (active_descendants : list Node)
    (output_all_resource_defines : bool) (item : Node) (tid : string)
    (Hname : attrs item !! "name" = Some tid)
    (Hid : tids !! tid = None)
    (Hkey : returns (get_key item)) :
  (forall seen,
      _FormatSource_item get_key tids active_descendants
        output_all_resource_defines seen item = Gen [] (Ok seen)) /\
  (forall l1 l2 seen,
      for_each (_FormatSource_item get_key tids active_descendants
                  output_all_resource_defines) (l1 ++ item :: l2)%list seen =
      for_each (_FormatSource_item get_key tids active_descendants
                  output_all_resource_defines) (l1 ++ l2)%list seen).
Proof.
  assert (Hskip : forall seen,
    _FormatSource_item get_key tids active_descendants
      output_all_resource_defines seen item = mret seen).
  { intros seen. apply item_skipped.
    - intros _. split; [exact Hkey | now exists tid].
    - left. unfold eligible, name_of, dict_contains. rewrite Hname, Hid.
      rewrite bool_decide_eq_false_2 by (intros [? ?]; discriminate).
      now rewrite andb_false_r. }
  split; [exact Hskip |].
  intros l1 l2 seen. now apply for_each_skip.
Qed.

Lemma FormatSource_item_without_id_witness :
  _FormatSource_item _GetItemName (greeting_ids greeting_root) [greeting; orphan]
    false ∅ orphan = Gen [] (Ok ∅) /\
  for_each (_FormatSource_item _GetItemName (greeting_ids greeting_root)
              [greeting; orphan] false) [greeting; orphan] ∅ =
  for_each (_FormatSource_item _GetItemName (greeting_ids greeting_root)
              [greeting; orphan] false) [greeting] ∅.
Proof.
  destruct (FormatSource_item_without_id _GetItemName (greeting_ids greeting_root)
              [greeting; orphan] false orphan "IDS_ORPHAN")
    as [Hitem Hloop].
  - vm_compute. reflexivity.
  - vm_compute. reflexivity.
  - eexists. reflexivity.
  - split; [apply Hitem | apply (Hloop [greeting] [])].
Defined.

(** ** The extractor of paths *)

Lemma get_replace (s : string) (old new : ascii) (i : nat) :
  String.get i (replace s old new) =
    match String.get i s with
    | Some c => Some (if Ascii.eqb c old then new else c)
    | None => None
    end.
Proof.
  revert i. induction s as [|x s IH]; intros i; [reflexivity |].
  destruct i as [|i]; [reflexivity | apply IH].
Qed.

Lemma has_char_replace (s : string) (old new : ascii) :
  old <> new -> has_char (replace s old new) old = false.
Proof.
  intros Hne. induction s as [|x s IH]; [reflexivity |].
  cbn [replace has_char]. rewrite IH, orb_false_r.
  destruct (Ascii.eqb_spec x old) as [->|Hx].
  - apply Ascii.eqb_neq. congruence.
  - now apply Ascii.eqb_neq.
Qed.

(** C8.  The extractor of paths never fails: it answers the input path of
    the node with every backslash replaced by a slash and every other
    character kept, so the answer has the length of the path and no
    backslash; the path made of [a], [b] and [c.png] joined by backslashes
    becomes [a/b/c.png]. *)
Theorem GetItemPath_normalizes (item : Node) :
  exists key,
    _GetItemPath item = Ok key /\
    String.length key = String.length (GetInputPath item) /\
    (forall i : nat,
        String.get i key =
          match String.get i (GetInputPath item) with
          | Some c => Some (if Ascii.eqb c "\" then "/"%char else c)
          | None => None
          end) /\
    has_char key "\" = false /\
    (GetInputPath item = "a\b\c.png" -> key = "a/b/c.png").
Proof.
  exists (replace (GetInputPath item) "\" "/"). repeat split.
  - apply length_replace.
  - intros i. apply get_replace.
  - apply has_char_replace. discriminate.
  - intros ->. reflexivity.
Qed.

Lemma GetItemPath_normalizes_witness :
  _GetItemPath (node 1 "IDS_C" "a\b\c.png") = Ok "a/b/c.png".
Proof.
  destruct (GetItemPath_normalizes (node 1 "IDS_C" "a\b\c.png"))
    as (key & Hkey & _ & _ & _ & Hex).
  rewrite Hkey. f_equal. apply Hex. reflexivity.
Defined.

(** * Further properties *)

Import MoreSamples.

(** ** The name that [GetMapName] answers *)








(** X3.  Whatever the base name of the last [rc_header] filename, the loop
    of [GetMapName], which looks for the first underscore anew at every turn,
    does what one pass from left to right does: every underscore is dropped,
    the first character and each character that comes after one or more
    underscores are upper-cased, every other character is kept, and
    IndexError is raised when the base name is empty or ends with an
    underscore. *)
Theorem GetMapName_single_pass (root : Root) (f : string)
    (Hlast : last_rc_header (GetOutputFiles root) f)
    (Hf : f <> EmptyString) :
  GetMapName root =
    match camel_pass true (base_name f) with
    | Ok s => Ok ("k" +:+ s)
    | Raise e => Raise e
    end.
Proof.
  pose proof (scan_rc_header_last _ _ None Hlast) as Hscan.
  rewrite (GetMapName_pass root f Hscan); [| now destruct f].
  now destruct (camel_pass true (base_name f)).
Qed.

Lemma GetMapName_single_pass_witness :
  GetMapName (bare_root [output "rc_header" "a__b_c.h"]) = Ok "kABC".
Proof.
  rewrite (GetMapName_single_pass (bare_root [output "rc_header" "a__b_c.h"])
             "a__b_c.h").
  - vm_compute. reflexivity.
  - exists [], (output "rc_header" "a__b_c.h"), []. repeat split; constructor.
  - discriminate.
Defined.

Lemma camel_pass_plain (s : string) :
  has_char s "_" = false -> camel_pass false s = Ok s.
Proof.
  induction s as [|x s IH]; intros H; [reflexivity |].
  cbn [has_char] in H. apply orb_false_iff in H as [Hx Hs].
  cbn [camel_pass]. now rewrite Hx, (IH Hs).
Qed.

(** X4.  When the base name of the last [rc_header] filename holds no
    underscore, the name is [k] and the base name with its first character
    upper-cased: no other character changes. *)
Theorem GetMapName_plain (root : Root) (f : string) (c : ascii) (r : string)
    (Hlast : last_rc_header (GetOutputFiles root) f)
    (Hbase : base_name f = String c r)
    (Hplain : has_char (String c r) "_" = false) :
  GetMapName root = Ok ("k" +:+ String (upper_char c) r).
Proof.
  pose proof (scan_rc_header_last _ _ None Hlast) as Hscan.
  rewrite (GetMapName_pass root f Hscan).
  - rewrite Hbase. cbn [has_char] in Hplain.
    apply orb_false_iff in Hplain as [Hc Hr].
    cbn [camel_pass]. now rewrite Hc, (camel_pass_plain r Hr).
  - apply base_name_nonempty. now rewrite Hbase.
Qed.

Lemma GetMapName_plain_witness :
  GetMapName simple_root = Ok "kSimple".
Proof.
  apply (GetMapName_plain simple_root "simple.h" "s" "imple").
  - exists [], (output "rc_header" "simple.h"), []. repeat split; constructor.
  - vm_compute. reflexivity.
  - vm_compute. reflexivity.
Defined.

(** X5.  An [rc_header] output whose filename is empty counts for none:
    when the last [rc_header] output has the empty filename, [GetMapName]
    raises [unable to find resource header filename], also when an earlier
    [rc_header] output has a filename. *)
Theorem GetMapName_empty_filename (root : Root)
    (Hlast : last_rc_header (GetOutputFiles root) EmptyString) :
  GetMapName root = Raise (Exception "unable to find resource header filename").
Proof.
  unfold GetMapName. now rewrite (scan_rc_header_last _ _ None Hlast).
Qed.

Lemma GetMapName_empty_filename_witness :
  GetMapName unnamed_root =
    Raise (Exception "unable to find resource header filename").
Proof.
  apply (GetMapName_empty_filename unnamed_root).
  exists [output "rc_header" "a.h"], (output "rc_header" EmptyString), [].
  repeat split; constructor.
Defined.

(** ** The directory and the extension of the header *)

Lemma take_app_length (a t : string) : take (String.length a) (a +:+ t) = a.
Proof. induction a as [|x a IH]; [now destruct t | simpl; now rewrite IH]. Qed.

Lemma drop_app_length (a t : string) : drop (String.length a) (a +:+ t) = t.
Proof. induction a as [|x a IH]; [reflexivity | exact IH]. Qed.

Lemma app_assoc_string (a b c : string) : (a +:+ b) +:+ c = a +:+ (b +:+ c).
Proof.
  induction a as [|x a IH]; [reflexivity |].
  simpl. apply (f_equal (String x)). exact IH.
Qed.

Lemma rfind_range (s : string) (c : ascii) : -1 <= rfind s c < len s.
Proof.
  unfold len. induction s as [|x s IH]; cbn [rfind String.length]; [lia |].
  destruct (rfind s c =? -1) eqn:E.
  - destruct (Ascii.eqb x c); lia.
  - apply Z.eqb_neq in E. lia.
Qed.

Lemma rfind_absent (s : string) (c : ascii) :
  has_char s c = false -> rfind s c = -1.
Proof.
  induction s as [|x s IH]; [reflexivity |].
  cbn [has_char rfind]. intros [Hx Hs]%orb_false_iff.
  now rewrite (IH Hs), Hx.
Qed.

(** The last occurrence is the one that nothing follows. *)
Lemma rfind_last (d f : string) (c : ascii) :
  has_char f c = false -> rfind (d +:+ String c f) c = len d.
Proof.
  intros Hf. unfold len. induction d as [|x d IH].
  - cbn [append rfind]. simpl. rewrite (rfind_absent f c Hf).
    now rewrite Ascii.eqb_refl.
  - change (String x d +:+ String c f) with (String x (d +:+ String c f)).
    cbn [rfind String.length]. rewrite IH.
    replace (Z.of_nat (String.length d) =? -1) with false
      by (symmetry; apply Z.eqb_neq; lia).
    lia.
Qed.

Lemma split_tail_plain (f : string) :
  has_char f "/" = false -> (os_path.split f).2 = f.
Proof.
  intros Hf. unfold os_path.split. cbn [snd].
  rewrite (rfind_absent f "/" Hf). now rewrite slice_from by lia.
Qed.

Lemma split_tail_dir (d f : string) :
  has_char f "/" = false -> (os_path.split (d +:+ String "/" f)).2 = f.
Proof.
  intros Hf. unfold os_path.split. cbn [snd].
  rewrite (rfind_last d f "/" Hf). unfold len.
  rewrite slice_from by lia.
  replace (Z.to_nat (Z.of_nat (String.length d) + 1))
    with (String.length (d +:+ "/")).
  - rewrite <- (drop_app_length (d +:+ "/") f) at 2.
    now rewrite app_assoc_string.
  - rewrite length_app. cbn [String.length]. lia.
Qed.

(** X6.  The directory of the header does not tell in the name: a filename
    [d/f], where [f] is not empty and holds no slash, gives what [f] alone
    gives, be it a name or an exception. *)
Theorem GetMapName_directory (root root' : Root) (d f : string)
    (Hlast : last_rc_header (GetOutputFiles root) (d +:+ String "/" f))
    (Hlast' : last_rc_header (GetOutputFiles root') f)
    (Hf : f <> EmptyString)
    (Hslash : has_char f "/" = false) :
  base_name (d +:+ String "/" f) = base_name f /\
  GetMapName root = GetMapName root'.
Proof.
  assert (Hbase : base_name (d +:+ String "/" f) = base_name f).
  { unfold base_name. now rewrite split_tail_dir, split_tail_plain. }
  split; [exact Hbase |].
  rewrite (GetMapName_pass root _ (scan_rc_header_last _ _ None Hlast))
    by now destruct d.
  rewrite (GetMapName_pass root' _ (scan_rc_header_last _ _ None Hlast'))
    by now destruct f.
  now rewrite Hbase.
Qed.

Lemma GetMapName_directory_witness :
  GetMapName nested_root = GetMapName theme_root.
Proof.
  apply (GetMapName_directory nested_root theme_root "gen/ui" "theme_resources.h").
  - exists [], (output "rc_header" "gen/ui/theme_resources.h"), [].
    repeat split; constructor.
  - exists [], (output "rc_header" "theme_resources.h"), [].
    repeat split; constructor.
  - discriminate.
  - vm_compute. reflexivity.
Defined.

Lemma slice_one (a : string) (x : ascii) (t : string) :
  slice (a +:+ String x t) (Some (len a)) (Some (len a + 1)) = String x EmptyString.
Proof.
  unfold slice, clamp, len. rewrite length_app. cbn [String.length].
  ztests.
  rewrite !Z.min_l by lia.
  replace (Z.of_nat (String.length a) + 1 - Z.of_nat (String.length a)) with 1 by lia.
  rewrite Nat2Z.id, drop_app_length. reflexivity.
Qed.

(** The scan stops at the first character that is not a dot. *)
Lemma splitext_scan_found (b a t : string) (dotIndex : Z) :
  only_char b "." = false ->
  os_path.splitext_scan (String.length b) (a +:+ b +:+ t) (len a) dotIndex =
    (slice (a +:+ b +:+ t) None (Some dotIndex),
     slice (a +:+ b +:+ t) (Some dotIndex) None).
Proof.
  revert a. induction b as [|x b IH]; intros a Hb; [discriminate |].
  cbn [String.length os_path.splitext_scan].
  change (String x b +:+ t) with (String x (b +:+ t)).
  rewrite slice_one. cbn [only_char] in Hb.
  destruct (Ascii.eqb_spec x ".") as [->|Hx].
  - cbn [andb] in Hb. cbn [String.eqb Ascii.eqb Bool.eqb negb].
    specialize (IH (a +:+ ".") Hb).
    rewrite app_assoc_string in IH. cbn [append] in IH.
    replace (len (a +:+ ".")) with (len a + 1) in IH
      by (unfold len; rewrite length_app; cbn [String.length]; lia).
    exact IH.
  - replace (String.eqb (String x EmptyString) ".") with false; [reflexivity |].
    symmetry. apply String.eqb_neq. congruence.
Qed.

Lemma splitext_stem (s ext : string) :
  has_char s "/" = false -> has_char ext "/" = false ->
  has_char ext "." = false -> only_char s "." = false ->
  os_path.splitext (s +:+ String "." ext) = (s, String "." ext).
Proof.
  intros Hs He Hd Hdots. unfold os_path.splitext.
  rewrite (rfind_absent (s +:+ String "." ext) "/")
    by (rewrite has_char_app; cbn [has_char Ascii.eqb Bool.eqb orb]; now rewrite Hs, He).
  rewrite (rfind_last s ext "." Hd).
  pose proof (Nat2Z.is_nonneg (String.length s)) as Hn. fold (len s) in Hn.
  ztests.
  replace (Z.to_nat (len s - (-1 + 1))) with (String.length s)
    by (unfold len; lia).
  pose proof (splitext_scan_found s EmptyString (String "." ext) (len s) Hdots) as H.
  change (EmptyString +:+ s +:+ String "." ext) with (s +:+ String "." ext) in H.
  change (len EmptyString) with (-1 + 1) in H.
  rewrite H. rewrite slice_to, slice_from by lia.
  unfold len. rewrite Nat2Z.id.
  now rewrite take_app_length, drop_app_length.
Qed.

(** X7.  The extension of the header does not tell in the name.  For a stem
    [s] without slash that is not made of dots only, and an extension [ext]
    without dot or slash, the base name of [s.ext] is [s]; so two headers
    that differ in their extension give the same name, or the same
    exception. *)
Theorem GetMapName_extension (root root' : Root) (s ext ext' : string)
    (Hlast : last_rc_header (GetOutputFiles root) (s +:+ String "." ext))
    (Hlast' : last_rc_header (GetOutputFiles root') (s +:+ String "." ext'))
    (Hs : has_char s "/" = false)
    (Hdots : only_char s "." = false)
    (Hext : has_char ext "/" = false /\ has_char ext "." = false)
    (Hext' : has_char ext' "/" = false /\ has_char ext' "." = false) :
  base_name (s +:+ String "." ext) = s /\
  GetMapName root = GetMapName root'.
Proof.
  assert (Hbase : forall e, has_char e "/" = false -> has_char e "." = false ->
                            base_name (s +:+ String "." e) = s).
  { intros e H1 H2. unfold base_name. rewrite split_tail_plain.
    - now rewrite splitext_stem.
    - rewrite has_char_app. cbn [has_char Ascii.eqb Bool.eqb orb].
      now rewrite Hs, H1. }
  destruct Hext as [H1 H2], Hext' as [H1' H2'].
  split; [now apply Hbase |].
  rewrite (GetMapName_pass root _ (scan_rc_header_last _ _ None Hlast))
    by now destruct s.
  rewrite (GetMapName_pass root' _ (scan_rc_header_last _ _ None Hlast'))
    by now destruct s.
  now rewrite !Hbase.
Qed.

Lemma GetMapName_extension_witness :
  base_name "theme_resources.h" = "theme_resources" /\
  GetMapName theme_root = GetMapName hpp_root.
Proof.
  apply (GetMapName_extension theme_root hpp_root "theme_resources" "h" "hpp").
  - exists [], (output "rc_header" "theme_resources.h"), [].
    repeat split; constructor.
  - exists [], (output "rc_header" "theme_resources.hpp"), [].
    repeat split; constructor.
  - vm_compute. reflexivity.
  - vm_compute. reflexivity.
  - split; vm_compute; reflexivity.
  - split; vm_compute; reflexivity.
Defined.

(** X8.  A filename that is a dot and an extension keeps it all: the leading
    dot starts no extension, so the base name of [.ext] is [.ext], and when
    [ext] holds no dot, slash or underscore the name is [k.ext], which no
    more is an identifier. *)
Theorem GetMapName_leading_dot (root : Root) (ext : string)
    (Hlast : last_rc_header (GetOutputFiles root) (String "." ext))
    (Hslash : has_char ext "/" = false)
    (Hdot : has_char ext "." = false)
    (Hplain : has_char ext "_" = false) :
  base_name (String "." ext) = String "." ext /\
  GetMapName root = Ok ("k" +:+ String "." ext).
Proof.
  assert (Hbase : base_name (String "." ext) = String "." ext).
  { unfold base_name. rewrite split_tail_plain
      by (cbn [has_char Ascii.eqb Bool.eqb orb]; exact Hslash).
    unfold os_path.splitext.
    rewrite (rfind_absent (String "." ext) "/")
      by (cbn [has_char Ascii.eqb Bool.eqb orb]; exact Hslash).
    pose proof (rfind_last EmptyString ext "." Hdot) as Hr.
    change (EmptyString +:+ String "." ext) with (String "." ext) in Hr.
    rewrite Hr. reflexivity. }
  split; [exact Hbase |].
  rewrite (GetMapName_pass root _ (scan_rc_header_last _ _ None Hlast) eq_refl).
  rewrite Hbase. cbn [camel_pass Ascii.eqb Bool.eqb].
  now rewrite (camel_pass_plain ext Hplain).
Qed.

Lemma GetMapName_leading_dot_witness :
  base_name ".h" = ".h" /\ GetMapName dot_root = Ok "k.h".
Proof.
  apply (GetMapName_leading_dot dot_root "h").
  - exists [], (output "rc_header" ".h"), []. repeat split; constructor.
  - reflexivity.
  - reflexivity.
  - reflexivity.
Defined.

(** ** The run of the source formatter *)

Lemma gen_bind_assoc {A B C} (m : gen A) (f : A -> gen B) (g : B -> gen C) :
  ((m ≫= f) ≫= g) = (m ≫= fun a => f a ≫= g).
Proof.
  unfold mbind, gen_bind. destruct m as [ys [a|e]]; cbn [outcome yielded];
    [| reflexivity].
  destruct (f a) as [zs [b|e]]; cbn [outcome yielded]; [| reflexivity].
  destruct (outcome (g b)); now rewrite app_assoc.
Qed.

(** A loop over two lists in a row is the loop over the first and then the
    loop over the second, from the state that the first leaves. *)
Lemma for_each_app {S A} (body : S -> A -> gen S) (l1 l2 : list A) (s : S) :
  for_each body (l1 ++ l2)%list s =
    (for_each body l1 s ≫= for_each body l2).
Proof.
  revert s. induction l1 as [|x l1 IH]; intros s; cbn [for_each app].
  - now rewrite gen_bind_ret.
  - rewrite gen_bind_assoc. apply gen_bind_ext. exact IH.
Qed.

Lemma scan_source_outputs_app (pre post : list Output) (rc map : option string) :
  scan_source_outputs (pre ++ post)%list rc map =
    scan_source_outputs post (scan_source_outputs pre rc map).1
      (scan_source_outputs pre rc map).2.
Proof.
  revert rc map. induction pre as [|o pre IH]; intros rc map;
    cbn [scan_source_outputs app]; [reflexivity |].
  destruct (String.eqb "rc_header" (GetType o)); [apply IH |].
  destruct (String.eqb "resource_map_header" (GetType o)); apply IH.
Qed.

(** Both scans keep the same header. *)
Lemma scan_source_outputs_header (outputs : list Output) (rc map : option string) :
  (scan_source_outputs outputs rc map).1 = scan_rc_header outputs rc.
Proof.
  revert rc map. induction outputs as [|o outputs IH]; intros rc map;
    cbn [scan_source_outputs scan_rc_header]; [reflexivity |].
  destruct (String.eqb "rc_header" (GetType o)); [apply IH |].
  destruct (String.eqb "resource_map_header" (GetType o)); apply IH.
Qed.

Lemma scan_source_outputs_last_map (outputs : list Output) (m : string)
    (rc map : option string) :
  last_map_header outputs m ->
  (scan_source_outputs outputs rc map).2 = Some m.
Proof.
  intros (pre & o & post & -> & Ht & <- & Hpost).
  rewrite scan_source_outputs_app. cbn [scan_source_outputs].
  rewrite Ht.
  change (String.eqb "rc_header" "resource_map_header") with false.
  rewrite String.eqb_refl. cbn iota.
  now rewrite scan_source_outputs_map.
Qed.

Lemma camel_pass_raise (s : string) (cap : bool) (e : exn) :
  camel_pass cap s = Raise e -> e = IndexError.
Proof.
  revert cap. induction s as [|x s IH]; intros cap; cbn [camel_pass].
  - destruct cap; [now intros [= <-] | discriminate].
  - destruct (Ascii.eqb x "_"); [apply IH |].
    destruct (camel_pass false s) as [r|e'] eqn:Hs; [discriminate |].
    cbn. intros [= <-]. now apply (IH false).
Qed.

(** The header fails by the check of the outputs or by an index of
    [GetMapName], never by the check of [GetMapName]. *)
Lemma FormatSourceHeader_raise (root : Root) (e : exn) :
  _FormatSourceHeader root = Raise e ->
  e = Exception
        "resource_map_source output type requires resource_map_header and rc_header outputs"
  \/ e = IndexError.
Proof.
  unfold _FormatSourceHeader.
  pose proof (scan_source_outputs_header (GetOutputFiles root) None None) as Hrc.
  destruct (scan_source_outputs (GetOutputFiles root) None None) as [rc map].
  cbn [fst] in Hrc.
  destruct (py_not rc || py_not map) eqn:Hnot; [intros [= <-]; now left |].
  apply orb_false_iff in Hnot as [Hnot _].
  destruct rc as [f|]; [| discriminate]. cbn [py_not] in Hnot.
  apply negb_false_iff in Hnot.
  rewrite (GetMapName_pass root f (eq_sym Hrc) Hnot).
  destruct (camel_pass true (base_name f)) as [s|e'] eqn:Hs; [discriminate |].
  cbn. intros [= <-]. right. now apply camel_pass_raise in Hs.
Qed.

Section Run.

Variable GetIds : Root -> gmap string Z.
Variable get_key : Node -> result string.
Variable root : Root.

Let body := _FormatSource_item get_key (GetIds root) (ActiveDescendants root)
              (ShouldOutputAllResourceDefines root).

(** The generator, once the header is there: the fragments of the loop
    follow the header, and the footer follows them when the loop ends. *)
Lemma FormatSource_run (lang output_dir header : string) :
  _FormatSourceHeader root = Ok header ->
  exists name,
    GetMapName root = Ok name /\
    _FormatSource GetIds get_key root lang output_dir =
      match outcome (for_each body (iter root) ∅) with
      | Ok _ =>
          Gen (header :: yielded (for_each body (iter root) ∅)
                 ++ [source_footer_text name])%list (Ok tt)
      | Raise e =>
          Gen (header :: yielded (for_each body (iter root) ∅)) (Raise e)
      end.
Proof.
  intros Hheader.
  destruct (FormatSourceHeader_name root header Hheader) as [name Hname].
  exists name. split; [exact Hname |].
  unfold _FormatSource, _FormatSourceFooter. rewrite Hheader, Hname.
  fold body. unfold mbind at 1 2 3 4, gen_bind. cbn [call yield outcome yielded].
  destruct (for_each body (iter root) ∅) as [ys [s|e]];
    cbn [outcome yielded mbind result_bind app]; reflexivity.
Qed.

End Run.

(** ** How the source formatter fails *)

Lemma call_raise {A B} (e : exn) (f : A -> gen B) :
  (call (Raise e) ≫= f) = Gen [] (Raise e).
Proof. reflexivity. Qed.

(** The loop raises only what the key extractor or the lookup of the name
    raises. *)
Lemma loop_raise (get_key : Node -> result string) (tids : gmap string Z)
    (active_descendants : list Node) (output_all_resource_defines : bool)
    (items : list Node) (seen : gset string) (e : exn) :
  (forall item e', get_key item = Raise e' -> e' = KeyError "name") ->
  outcome (for_each (_FormatSource_item get_key tids active_descendants
                       output_all_resource_defines) items seen) = Raise e ->
  e = KeyError "name".
Proof.
  intros Hkey. revert seen. induction items as [|item items IH]; intros seen;
    cbn [for_each]; [discriminate |].
  unfold mbind at 1, gen_bind.
  destruct (_FormatSource_item get_key tids active_descendants
              output_all_resource_defines seen item) as [ys [s|e']] eqn:Hitem;
    cbn [outcome yielded].
  - apply IH.
  - intros [= <-]. revert Hitem. unfold _FormatSource_item.
    destruct (IsResourceMapSource item); [| discriminate]. cbn [negb].
    destruct (get_key item) as [key|e1] eqn:Hk.
    + rewrite call_ok. unfold dict_getitem.
      destruct (attrs item !! "name") as [tid|].
      * rewrite call_ok.
        destruct (negb (dict_contains tids tid) || bool_decide (key ∈ seen));
          [discriminate |].
        destruct (GeneratesResourceMapEntry item output_all_resource_defines
                    (node_in item active_descendants)); discriminate.
      * rewrite call_raise. now intros [= _ <-].
    + rewrite call_raise. intros [= _ <-]. now apply (Hkey item).
Qed.

Lemma extractor_raise (get_key : Node -> result string) :
  get_key = _GetItemName \/ get_key = _GetItemPath ->
  forall item e, get_key item = Raise e -> e = KeyError "name".
Proof.
  intros [-> | ->] item e; [| discriminate].
  unfold _GetItemName, dict_getitem.
  destruct (attrs item !! "name"); [discriminate | now intros [= <-]].
Qed.

(** X9.  With either extractor of the module, the source formatter ends in
    one of four ways: it comes to its end, or it raises the exception of the
    missing outputs, or IndexError, or KeyError for [name].  It never raises
    [unable to find resource header filename]: its own check of the outputs
    comes before the call of [GetMapName]. *)
Theorem FormatSource_exceptions (GetIds : Root -> gmap string Z)
    (get_key : Node -> result string) (root : Root) (lang output_dir : string)
    (Hextractor : get_key = _GetItemName \/ get_key = _GetItemPath) :
  outcome (_FormatSource GetIds get_key root lang output_dir) = Ok tt \/
  outcome (_FormatSource GetIds get_key root lang output_dir) =
    Raise (Exception
      "resource_map_source output type requires resource_map_header and rc_header outputs") \/
  outcome (_FormatSource GetIds get_key root lang output_dir) = Raise IndexError \/
  outcome (_FormatSource GetIds get_key root lang output_dir) =
    Raise (KeyError "name").
Proof.
  destruct (_FormatSourceHeader root) as [header|e] eqn:Hheader.
  - destruct (FormatSource_run GetIds get_key root lang output_dir header Hheader)
      as (name & _ & ->).
    destruct (outcome (for_each _ (iter root) ∅)) as [s|e] eqn:Hloop;
      cbn [outcome]; [now left |].
    right. right. right. f_equal.
    exact (loop_raise _ _ _ _ _ _ _ (extractor_raise get_key Hextractor) Hloop).
  - unfold _FormatSource. rewrite Hheader. cbn.
    destruct (FormatSourceHeader_raise root e Hheader) as [-> | ->]; tauto.
Qed.

Lemma FormatSource_exceptions_witness :
  outcome (_FormatSource greeting_ids _GetItemPath broken_root "en" ".") = Ok tt \/
  outcome (_FormatSource greeting_ids _GetItemPath broken_root "en" ".") =
    Raise (Exception
      "resource_map_source output type requires resource_map_header and rc_header outputs") \/
  outcome (_FormatSource greeting_ids _GetItemPath broken_root "en" ".") =
    Raise IndexError \/
  outcome (_FormatSource greeting_ids _GetItemPath broken_root "en" ".") =
    Raise (KeyError "name").
Proof.
  apply (FormatSource_exceptions greeting_ids _GetItemPath broken_root "en" ".").
  right. reflexivity.
Defined.

(** X10.  A resource-map source that has no [name] attribute stops the
    generator with KeyError for [name], with either extractor: the header
    and the rows of the nodes before it are yielded, the footer is not, and
    the nodes after it do not tell. *)
Theorem FormatSource_missing_name (GetIds : Root -> gmap string Z)
    (get_key : Node -> result string) (root : Root)
    (lang output_dir header : string) (l1 l2 : list Node) (item : Node)
    (Hextractor : get_key = _GetItemName \/ get_key = _GetItemPath)
    (Hheader : _FormatSourceHeader root = Ok header)
    (Hiter : iter root = (l1 ++ item :: l2)%list)
    (Hwf : Forall (well_formed get_key) l1)
    (Hsource : IsResourceMapSource item = true)
    (Hname : attrs item !! "name" = None) :
  exists emitted,
    _FormatSource GetIds get_key root lang output_dir =
      Gen (header :: map (row_of get_key) emitted) (Raise (KeyError "name")) /\
    sublist emitted l1.
Proof.
  destruct (FormatSource_run GetIds get_key root lang output_dir header Hheader)
    as (name & _ & ->).
  destruct (loop_rows get_key (GetIds root) (ActiveDescendants root)
              (ShouldOutputAllResourceDefines root) l1 ∅ Hwf)
    as (emitted & seen' & Hrun & Hsub & _).
  exists emitted. split; [| exact Hsub].
  rewrite Hiter, for_each_app, Hrun. cbn [for_each].
  assert (Hitem : _FormatSource_item get_key (GetIds root) (ActiveDescendants root)
                    (ShouldOutputAllResourceDefines root) seen' item =
                  Gen [] (Raise (KeyError "name"))).
  { unfold _FormatSource_item. rewrite Hsource. cbn [negb].
    destruct Hextractor as [-> | ->].
    - unfold _GetItemName, dict_getitem. rewrite Hname. apply call_raise.
    - unfold _GetItemPath. rewrite call_ok. unfold dict_getitem. rewrite Hname.
      apply call_raise. }
  unfold mbind, gen_bind. cbn [outcome yielded]. rewrite Hitem.
  cbn [outcome yielded]. now rewrite app_nil_r.
Qed.

Lemma FormatSource_missing_name_witness :
  exists header,
    _FormatSourceHeader broken_root = Ok header /\
    exists emitted,
      _FormatSource greeting_ids _GetItemPath broken_root "en" "." =
        Gen (header :: map (row_of _GetItemPath) emitted) (Raise (KeyError "name")) /\
      sublist emitted [grouping; greeting].
Proof.
  eexists. split; [vm_compute; reflexivity |].
  apply (FormatSource_missing_name greeting_ids _GetItemPath broken_root "en" "."
           _ [grouping; greeting] [orphan] nameless).
  - right. reflexivity.
  - vm_compute. reflexivity.
  - reflexivity.
  - repeat constructor; try (eexists; reflexivity); discriminate.
  - reflexivity.
  - reflexivity.
Defined.

Lemma scan_source_outputs_both (root : Root) (f m : string) :
  last_rc_header (GetOutputFiles root) f ->
  last_map_header (GetOutputFiles root) m ->
  scan_source_outputs (GetOutputFiles root) None None = (Some f, Some m).
Proof.
  intros Hf Hm.
  pose proof (scan_source_outputs_header (GetOutputFiles root) None None) as H1.
  pose proof (scan_source_outputs_last_map _ m None None Hm) as H2.
  rewrite (scan_rc_header_last _ _ None Hf) in H1.
  destruct (scan_source_outputs (GetOutputFiles root) None None) as [rc map].
  cbn [fst snd] in *. now subst.
Qed.

(** X11.  With both headers among the outputs, and the base name of the
    last [rc_header] filename ending with an underscore, the index of
    [GetMapName] that is out of range goes through all formatters: the
    header formatter raises IndexError, and the source formatter raises it
    before it yields anything. *)
Theorem formatters_index_error (GetIds : Root -> gmap string Z)
    (get_key : Node -> result string) (root : Root)
    (lang output_dir f m : string)
    (Hrc : last_rc_header (GetOutputFiles root) f)
    (Hmap : last_map_header (GetOutputFiles root) m)
    (Hm : m <> EmptyString)
    (Hend : endswith (base_name f) "_" = true) :
  _FormatHeader root lang output_dir = Raise IndexError /\
  _FormatSource GetIds get_key root lang output_dir = Gen [] (Raise IndexError).
Proof.
  assert (Hbase : base_name f <> EmptyString) by (intros E; now rewrite E in Hend).
  assert (Hname : GetMapName root = Raise IndexError).
  { rewrite (GetMapName_pass root f (scan_rc_header_last _ _ None Hrc)
               (base_name_nonempty f Hbase)).
    now rewrite (camel_pass_raises _ true Hend). }
  split.
  - unfold _FormatHeader. now rewrite Hname.
  - unfold _FormatSource, _FormatSourceHeader.
    rewrite (scan_source_outputs_both root f m Hrc Hmap). cbn [py_not].
    rewrite (base_name_nonempty f Hbase).
    destruct m; [now contradiction Hm |]. cbn [truthy negb orb].
    now rewrite Hname.
Qed.

Lemma formatters_index_error_witness :
  _FormatHeader trailing_both_root "en" "." = Raise IndexError /\
  _FormatSource greeting_ids _GetItemName trailing_both_root "en" "." =
    Gen [] (Raise IndexError).
Proof.
  apply (formatters_index_error greeting_ids _GetItemName trailing_both_root
           "en" "." "foo_.h" "foo_map.h").
  - exists [], (output "rc_header" "foo_.h"),
      [output "resource_map_header" "foo_map.h"].
    repeat split; repeat constructor. vm_compute. discriminate.
  - exists [output "rc_header" "foo_.h"],
      (output "resource_map_header" "foo_map.h"), [].
    repeat split; constructor.
  - discriminate.
  - vm_compute. reflexivity.
Defined.

(** X12.  When the last [rc_header] output and the last
    [resource_map_header] output have filenames that are not empty, and
    [GetMapName] returns a name, the three texts agree on it: the header
    formatter declares the array and its size under that name, the header of
    the source includes those two files, the map header first, and opens the
    array of that name, and the footer defines the size of that name. *)
Theorem formatters_agree (root : Root) (lang output_dir f m name : string)
    (Hrc : last_rc_header (GetOutputFiles root) f)
    (Hmap : last_map_header (GetOutputFiles root) m)
    (Hf : f <> EmptyString)
    (Hm : m <> EmptyString)
    (Hname : GetMapName root = Ok name) :
  (exists banner,
      _FormatHeader root lang output_dir =
        Ok (banner +:+ "extern const GritResourceMap " +:+ name +:+ "[];"
            +:+ newline +:+ "extern const size_t " +:+ name +:+ "Size;"
            +:+ newline)) /\
  _FormatSourceHeader root = Ok (source_header_text m f name) /\
  _FormatSourceFooter root = Ok (source_footer_text name).
Proof.
  repeat split.
  - unfold _FormatHeader. rewrite Hname. cbn [mbind result_bind].
    exists "// This file is automatically generated by GRIT.  Do not edit.

#include <stddef.h>

#ifndef GRIT_RESOURCE_MAP_STRUCT_
#define GRIT_RESOURCE_MAP_STRUCT_
struct GritResourceMap {
  const char* name;
  int value;
};
#endif // GRIT_RESOURCE_MAP_STRUCT_

".
    reflexivity.
  - unfold _FormatSourceHeader.
    rewrite (scan_source_outputs_both root f m Hrc Hmap). cbn [py_not].
    destruct f; [now contradiction Hf |]. destruct m; [now contradiction Hm |].
    cbn [truthy negb orb]. rewrite Hname. reflexivity.
  - unfold _FormatSourceFooter. now rewrite Hname.
Qed.

Lemma formatters_agree_witness :
  _FormatSourceHeader two_maps_root =
    Ok (source_header_text "resources_map.h" "resources.h" "kResources") /\
  _FormatSourceFooter two_maps_root = Ok (source_footer_text "kResources").
Proof.
  apply (formatters_agree two_maps_root "en" ".").
  - exists [output "resource_map_header" "old_map.h"],
      (output "rc_header" "resources.h"),
      [output "resource_map_header" "resources_map.h"].
    repeat split; repeat constructor. vm_compute. discriminate.
  - exists [output "resource_map_header" "old_map.h";
            output "rc_header" "resources.h"],
      (output "resource_map_header" "resources_map.h"), [].
    repeat split; constructor.
  - discriminate.
  - discriminate.
  - vm_compute. reflexivity.
Defined.

(** ** What the table holds *)




(** Among the nodes of one key that pass the filters, one comes first. *)
Lemma first_of_key (key : Node -> string) (ok : Node -> bool)
    (items : list Node) (item : Node) :
  item ∈ items -> ok item = true ->
  exists l1 e l2,
    items = (l1 ++ e :: l2)%list /\ ok e = true /\ key e = key item /\
    forall x, x ∈ l1 -> ok x = true -> key x <> key e.
Proof.
  induction items as [|y items IH]; intros Hin Hok; [now apply elem_of_nil in Hin |].
  destruct (ok y) eqn:Hy; [destruct (decide (key y = key item)) as [Hk|Hk] |].
  - exists [], y, items. repeat split; try assumption.
    intros x Hx. now apply elem_of_nil in Hx.
  - apply elem_of_cons in Hin as [-> | Hin]; [now contradiction Hk |].
    destruct (IH Hin Hok) as (l1 & e & l2 & -> & He & Hke & Hfirst).
    exists (y :: l1), e, l2. repeat split; try assumption.
    intros x [-> | Hx]%elem_of_cons Hx'; [congruence | now apply Hfirst].
  - apply elem_of_cons in Hin as [-> | Hin]; [congruence |].
    destruct (IH Hin Hok) as (l1 & e & l2 & -> & He & Hke & Hfirst).
    exists (y :: l1), e, l2. repeat split; try assumption.
    intros x [-> | Hx]%elem_of_cons Hx'; [congruence | now apply Hfirst].
Qed.

(** X14.  No key is lost: for every node of a well-formed tree that passes
    the filters, exactly one of the nodes kept has its key, and that node
    passes the filters too.  So the table has one row for each key of such
    nodes. *)
Theorem FormatSource_every_key (GetIds : Root -> gmap string Z)
    (get_key : Node -> result string) (root : Root)
    (lang output_dir header : string)
    (Hheader : _FormatSourceHeader root = Ok header)
    (Hwf : Forall (well_formed get_key) (iter root)) :
  exists emitted footer,
    _FormatSource GetIds get_key root lang output_dir =
      Gen (header :: map (row_of get_key) emitted ++ [footer])%list (Ok tt) /\
    forall item,
      item ∈ iter root ->
      eligible (GetIds root) (ActiveDescendants root)
        (ShouldOutputAllResourceDefines root) item = true ->
      exists e,
        filter (fun x => key_of get_key x = key_of get_key item) emitted = [e] /\
        eligible (GetIds root) (ActiveDescendants root)
          (ShouldOutputAllResourceDefines root) e = true.
Proof.
  destruct (FormatSource_shape GetIds get_key root lang output_dir header Hheader Hwf)
    as (emitted & footer & Hrun & _ & _ & _ & Hnd & Hfirst).
  exists emitted, footer. split; [exact Hrun |].
  intros item Hin Hok.
  destruct (first_of_key (key_of get_key) _ _ _ Hin Hok)
    as (l1 & e & l2 & Hiter & He & Hke & Hbefore).
  exists e. split; [| exact He].
  rewrite <- Hke. apply (filter_key_NoDup (key_of get_key)); [exact Hnd |].
  now apply (Hfirst l1 e l2).
Qed.

Lemma FormatSource_every_key_witness :
  exists header emitted footer,
    _FormatSourceHeader logo_root = Ok header /\
    _FormatSource logo_ids _GetItemPath logo_root "en" "." =
      Gen (header :: map (row_of _GetItemPath) emitted ++ [footer])%list (Ok tt) /\
    forall item,
      item ∈ iter logo_root ->
      eligible (logo_ids logo_root) (ActiveDescendants logo_root)
        (ShouldOutputAllResourceDefines logo_root) item = true ->
      exists e,
        filter (fun x => key_of _GetItemPath x = key_of _GetItemPath item) emitted
          = [e] /\
        eligible (logo_ids logo_root) (ActiveDescendants logo_root)
          (ShouldOutputAllResourceDefines logo_root) e = true.
Proof.
  eexists.
  destruct (FormatSource_every_key logo_ids _GetItemPath logo_root "en" "."
              (source_header_text "resources_map.h" "resources.h" "kResources"))
    as (emitted & footer & Hrun & Hall).
  - vm_compute. reflexivity.
  - repeat constructor; eexists; reflexivity.
  - exists emitted, footer. split; [vm_compute; reflexivity |].
    split; assumption.
Defined.

Lemma replace_absent (s : string) (old new : ascii) :
  has_char s old = false -> replace s old new = s.
Proof.
  induction s as [|x s IH]; [reflexivity |].
  cbn [has_char replace]. intros [Hx Hs]%orb_false_iff.
  now rewrite Hx, (IH Hs).
Qed.

(** X15.  A path that holds no backslash is its own key, and a key is a
    path that the extractor leaves as it is: to normalise twice is to
    normalise once. *)
Theorem GetItemPath_fixed (item : Node) :
  (has_char (GetInputPath item) "\" = false ->
   _GetItemPath item = Ok (GetInputPath item)) /\
  (forall (key : string) (item' : Node),
      _GetItemPath item = Ok key -> GetInputPath item' = key ->
      _GetItemPath item' = Ok key).
Proof.
  unfold _GetItemPath. split.
  - intros H. rewrite replace_absent by exact H. reflexivity.
  - intros key item' [= <-] ->.
    rewrite (replace_absent (replace _ _ _)); [reflexivity |].
    apply has_char_replace. discriminate.
Qed.

Lemma GetItemPath_fixed_witness :
  _GetItemPath logo = Ok "img/logo.png" /\
  (_GetItemPath old_logo = Ok "img/logo.png" -> _GetItemPath logo = Ok "img/logo.png").
Proof.
  split.
  - apply (proj1 (GetItemPath_fixed logo)). vm_compute. reflexivity.
  - intros H. apply (proj2 (GetItemPath_fixed old_logo) "img/logo.png" logo H).
    reflexivity.
Defined.

(** X16.  A node that is not a resource-map source is passed over before
    its key and its name are read: it leaves no row and raises nothing, also
    when it has no [name] attribute and the key extractor would raise on it,
    and the loop runs as if the node were not in the tree. *)
Theorem FormatSource_item_not_source (get_key : Node -> result string)
    (tids : gmap string Z) (active_descendants : list Node)
    (output_all_resource_defines : bool) (item : Node)
    (Hsource : IsResourceMapSource item = false) :
  (forall seen,
      _FormatSource_item get_key tids active_descendants
        output_all_resource_defines seen item = Gen [] (Ok seen)) /\
  (forall l1 l2 seen,
      for_each (_FormatSource_item get_key tids active_descendants
                  output_all_resource_defines) (l1 ++ item :: l2)%list seen =
      for_each (_FormatSource_item get_key tids active_descendants
                  output_all_resource_defines) (l1 ++ l2)%list seen).
Proof.
  assert (Hskip : forall seen,
    _FormatSource_item get_key tids active_descendants
      output_all_resource_defines seen item = mret seen).
  { intros seen. unfold _FormatSource_item. now rewrite Hsource. }
  split; [exact Hskip |].
  intros l1 l2 seen. now apply for_each_skip.
Qed.

Lemma FormatSource_item_not_source_witness :
  _GetItemName grouping = Raise (KeyError "name") /\
  _FormatSource_item _GetItemName (greeting_ids greeting_root) [greeting]
    false ∅ grouping = Gen [] (Ok ∅).
Proof.
  split; [reflexivity |].
  apply (FormatSource_item_not_source _GetItemName (greeting_ids greeting_root)
           [greeting] false grouping).
  reflexivity.
Defined.

(** ** The two tables that [GetFormatter] hands out *)






